(** * pdf-summarizer-bot: the chunk-and-reduce summarizer of [bot.py]

    A shallow embedding of [chunk_text], [summarize_text], [download_file]
    and [handle_document], and the properties of the specification that
    are about them.

    Python values are modelled as follows.
    - [int] is [Z] (unbounded, as in Python).
    - [str] is a list of Unicode code points; [len] counts code points.
    - a slice [s[a:b]] is [py_slice], with Python's treatment of negative
      and out-of-range bounds written out.
    - a [while] loop is a [Fixpoint] on a fuel argument that returns
      [None] when the fuel ends before the loop does.
    - the collaborators (messaging platform, HTTP, file system, text
      extractor, completion service) are oracles of a [World]; every call
      made to one is appended to a trace, together with its outcome. *)

From Stdlib Require Import List ZArith NArith Lia Bool.
From Stdlib Require String Ascii QArith_base.
Import ListNotations.

Set Implicit Arguments.

#[local] Open Scope Z_scope.

(** ** Python strings *)

Module Py.

(** A character is its Unicode code point. *)
Definition char : Type := N.
Definition str : Type := list char.

Definition len {A : Type} (s : list A) : Z := Z.of_nat (List.length s).

(** A bound of a slice, as Python normalises it for a sequence of length
    [n]: a negative bound counts from the end, and every bound is clamped
    to [0 .. n]. *)
Definition slice_bound (n i : Z) : Z :=
  if i <? 0 then Z.max 0 (i + n) else Z.min i n.

(** [s[start:stop]] *)
Definition py_slice {A : Type} (s : list A) (start stop : Z) : list A :=
  let n := len s in
  let a := slice_bound n start in
  let b := slice_bound n stop in
  firstn (Z.to_nat (b - a)) (skipn (Z.to_nat a) s).

(** [str.isspace] on one character: the code points CPython treats as
    white space. *)
Definition isspace (c : char) : bool :=
  (((9 <=? c) && (c <=? 13)) || ((28 <=? c) && (c <=? 32))
   || (c =? 133) || (c =? 160) || (c =? 5760)
   || ((8192 <=? c) && (c <=? 8202))
   || (c =? 8232) || (c =? 8233) || (c =? 8239) || (c =? 8287)
   || (c =? 12288))%N.

Fixpoint lstrip (s : str) : str :=
  match s with
  | [] => []
  | c :: s' => if isspace c then lstrip s' else s
  end.

Definition rstrip (s : str) : str := rev (lstrip (rev s)).

(** [s.strip()] *)
Definition strip (s : str) : str := rstrip (lstrip s).

(** [sep.join(parts)] *)
Fixpoint join (sep : str) (parts : list str) : str :=
  match parts with
  | [] => []
  | [p] => p
  | p :: ps => p ++ sep ++ join sep ps
  end.

Definition str_eqb (a b : str) : bool :=
  if list_eq_dec N.eq_dec a b then true else false.

(** Truth value of a string: empty is false. *)
Definition truthy (s : str) : bool :=
  match s with [] => false | _ :: _ => true end.

(** Decoder of UTF-8, used to write the literals of the source as they
    appear there. *)
Fixpoint utf8_decode (bs : list N) : str :=
  (match bs with
   | [] => []
   | b0 :: r0 =>
     if b0 <? 128 then b0 :: utf8_decode r0
     else match r0 with
     | [] => []
     | b1 :: r1 =>
       if b0 <? 224 then ((b0 - 192) * 64 + (b1 - 128)) :: utf8_decode r1
       else match r1 with
       | [] => []
       | b2 :: r2 =>
         if b0 <? 240
         then ((b0 - 224) * 4096 + (b1 - 128) * 64 + (b2 - 128))
                :: utf8_decode r2
         else match r2 with
         | [] => []
         | b3 :: r3 =>
           ((b0 - 240) * 262144 + (b1 - 128) * 4096 + (b2 - 128) * 64
            + (b3 - 128)) :: utf8_decode r3
         end
       end
     end
   end)%N.

Definition lit (s : String.string) : str :=
  utf8_decode (map Ascii.N_of_ascii (String.list_ascii_of_string s)).

End Py.

Import Py.

(** ** The Chunker *)

(** One test-and-iterate of the loop of [chunk_text]:
    [[
    while start < len(text):
        end = min(start + max_chars, len(text))
        chunks.append(text[start:end])
        start = end
    ]] *)
Definition chunk_end (text : str) (max_chars start : Z) : Z :=
  Z.min (start + max_chars) (len text).

Fixpoint chunk_loop (fuel : nat) (text : str) (max_chars : Z)
    (start : Z) (chunks : list str) : option (list str) :=
  if start <? len text then
    match fuel with
    | O => None
    | S fuel' =>
      let end_ := chunk_end text max_chars start in
      chunk_loop fuel' text max_chars end_
                 (chunks ++ [py_slice text start end_])
    end
  else Some chunks.

(** [chunk_text(text, max_chars)].  The loop runs on [length text] units
    of fuel: the result is [None] exactly when the loop of the source does
    not end ([chunk_text_None_iff] below). *)
Definition chunk_text (text : str) (max_chars : Z) : option (list str) :=
  chunk_loop (length text) text max_chars 0 [].

(** The default of the parameter [max_chars]. *)
Definition default_max_chars : Z := 10000.

(** ** Literals of the source *)

Module Msg.
Import String.
#[local] Open Scope string_scope.

(** [summarize_text], line 52. *)
Definition NO_API_KEY : str :=
  Eval vm_compute in lit "خطا: کلید OPENAI_API_KEY تنظیم نشده است.".
(** [handle_document], line 97. *)
Definition ONLY_PDF : str :=
  Eval vm_compute in lit "لطفاً فقط فایل PDF ارسال کن.".
(** line 102. *)
Definition RECEIVED : str :=
  Eval vm_compute in lit "فایل دریافت شد. در حال پردازش...".
(** line 108. *)
Definition NO_TEXT : str :=
  Eval vm_compute in lit "متن قابل استخراج پیدا نشد.".
(** The fixed part of the f-string of line 114. *)
Definition ERROR_PREFIX : str := Eval vm_compute in lit "خطا: ".

Definition MIME_PDF : str := Eval vm_compute in lit "application/pdf".
Definition DEFAULT_FILE_NAME : str := Eval vm_compute in lit "file.pdf".

Definition MODEL : str := Eval vm_compute in lit "gpt-4o-mini".
Definition ROLE_SYSTEM : str := Eval vm_compute in lit "system".
Definition ROLE_USER : str := Eval vm_compute in lit "user".
(** lines 60 and 61. *)
Definition CHUNK_SYSTEM : str :=
  Eval vm_compute in lit "تو یک خلاصه‌ساز دقیق و منظم هستی.".
Definition CHUNK_USER_PREFIX : str :=
  Eval vm_compute in (lit "این بخش از متن را خلاصه کن:" ++ [10; 10]%N)%list.
(** line 67. *)
Definition SEPARATOR : str :=
  Eval vm_compute in ([10; 10]%N ++ lit "---" ++ [10; 10]%N)%list.
(** lines 71 and 72. *)
Definition FINAL_SYSTEM : str :=
  Eval vm_compute in lit "خلاصه‌ی نهایی و منسجم با تیترهای کوتاه تولید کن.".
Definition FINAL_USER_PREFIX : str :=
  Eval vm_compute in
    (lit "این خلاصه‌های بخش‌بندی‌شده را به یک خلاصه‌ی نهایی تبدیل کن:"
     ++ [10; 10]%N)%list.

(** [str(e)] of the two exceptions that reading
    [resp.choices[0].message.content.strip()] can raise. *)
Definition INDEX_ERROR : str :=
  Eval vm_compute in lit "list index out of range".
Definition NONE_STRIP : str :=
  Eval vm_compute in lit "'NoneType' object has no attribute 'strip'".
(** [str(e)] of the exception that reading [message.document] raises
    when [update.message] is [None]. *)
Definition NONE_DOCUMENT : str :=
  Eval vm_compute in lit "'NoneType' object has no attribute 'document'".

End Msg.

(** ** Exceptions, collaborators and the trace *)

(** An exception with its [str(e)].  [Exception] stands for every class
    that derives from Python's [Exception], which [except Exception]
    catches; [BaseException] for the others (cancellation, interrupts),
    which it lets through. *)
Inductive exn : Type :=
| Exception (descr : str)
| BaseException (descr : str).

Definition exn_str (e : exn) : str :=
  match e with Exception d => d | BaseException d => d end.

Inductive result (A : Type) : Type :=
| Ok (a : A)
| Raise (e : exn).
Arguments Raise {A} e.

(** The inbound event, as far as the handler reads it. *)
Record Document : Type := {
  file_id : str;
  mime_type : option str;
  file_name : option str
}.
Record Message : Type := { document : option Document }.
(** An update of the messaging library.  Each kind of message is
    optional: a new message is in [message], an edited one in
    [edited_message], a post of a channel in [channel_post] or
    [edited_channel_post]. *)
Record Update : Type := {
  message : option Message;
  edited_message : option Message;
  channel_post : option Message;
  edited_channel_post : option Message
}.

(** The response of [requests.get]: [http_error] is the text of the
    [HTTPError] that [raise_for_status] raises for a 4xx or 5xx status;
    [body_chunks] is what [iter_content] yields, and [body_error] the
    exception it ends with, if any. *)
Record http_response : Type := {
  status_code : Z;
  http_error : str;
  body_chunks : list (list N);
  body_error : option exn
}.

(** The arguments of [client.chat.completions.create]. *)
Record chat_message : Type := { role : str; content : str }.
Record request : Type := {
  model : str;
  messages : list chat_message;
  temperature : QArith_base.Q
}.
(** Its response: one optional [message.content] per choice. *)
Record response : Type := { choices : list (option str) }.

(** The client of line 38. *)
Record OpenAI : Type := { api_key : str }.

(** Every call to a collaborator, with what it returned or raised, and
    the entry into [summarize_text]. *)
Inductive event : Type :=
| EvReplyText (text : str) (r : result unit)
| EvGetFile (fid : str) (r : result str)
| EvMkdtemp (r : result str)
| EvCleanup (dir : str) (r : result unit)
| EvRequestsGet (url : str) (r : result http_response)
| EvOpen (path : str) (r : result unit)
| EvWrite (path : str) (chunk : list N) (r : result unit)
| EvExtractText (path : str) (r : result str)
| EvSummarizeText (text : str)
| EvCreate (c : OpenAI) (req : request) (r : result response).

Definition trace : Type := list event.

(** The collaborators.  Each oracle sees the trace so far, so that a
    collaborator may answer the same call differently each time. *)
Record World : Type := {
  reply_text : trace -> str -> result unit;
  get_file : trace -> str -> result str;
  mkdtemp : trace -> result str;
  cleanup : trace -> str -> result unit;
  requests_get : trace -> str -> result http_response;
  open_wb : trace -> str -> result unit;
  write : trace -> str -> list N -> result unit;
  extract_text : trace -> str -> result str;
  create : trace -> OpenAI -> request -> result response;
  (** [str(Path(dir) / name)] *)
  path_join : str -> str -> str
}.

(** The environment variables read at lines 29 and 30. *)
Record Env : Type := {
  TELEGRAM_BOT_TOKEN : option str;
  OPENAI_API_KEY : option str
}.

(** ** Computations: a trace, an exception or a result, or no end *)

Inductive outcome (A : Type) : Type :=
| Done (r : result A) (tr : trace)
| Diverge.
Arguments Diverge {A}.

Definition M (A : Type) : Type := trace -> outcome A.

Definition ret {A : Type} (a : A) : M A := fun tr => Done (Ok a) tr.

Definition raise {A : Type} (e : exn) : M A := fun tr => Done (Raise e) tr.

Definition bind {A B : Type} (m : M A) (k : A -> M B) : M B :=
  fun tr =>
    match m tr with
    | Done (Ok a) tr' => k a tr'
    | Done (Raise e) tr' => Done (Raise e) tr'
    | Diverge => Diverge
    end.

Notation "x <- m ;; k" := (bind m (fun x => k))
  (at level 61, m at next level, right associativity).
Notation "m ;;; k" := (bind m (fun _ => k))
  (at level 61, right associativity).

(** [try: m  except Exception as e: h e] *)
Definition try_except {A : Type} (m : M A) (h : exn -> M A) : M A :=
  fun tr =>
    match m tr with
    | Done (Raise (Exception d)) tr' => h (Exception d) tr'
    | o => o
    end.

(** [with acquire as r: body r], the release running on every way out
    of the body. *)
Definition with_resource {A R : Type} (acquire : M R)
    (release : R -> M unit) (body : R -> M A) : M A :=
  fun tr =>
    match acquire tr with
    | Done (Ok r) tr1 =>
      match body r tr1 with
      | Done res tr2 =>
        match release r tr2 with
        | Done (Ok _) tr3 => Done res tr3
        | Done (Raise e) tr3 => Done (Raise e) tr3
        | Diverge => Diverge
        end
      | Diverge => Diverge
      end
    | Done (Raise e) tr1 => Done (Raise e) tr1
    | Diverge => Diverge
    end.

(** A call to a collaborator: ask the oracle, record the call. *)
Definition call {A : Type} (oracle : trace -> result A)
    (ev : result A -> event) : M A :=
  fun tr => let r := oracle tr in Done r (tr ++ [ev r]).

Definition emit (ev : event) : M unit := fun tr => Done (Ok tt) (tr ++ [ev]).

Definition of_result {A : Type} (r : result A) : M A := fun tr => Done r tr.

(** A loop of the source that may not end. *)
Definition of_loop {A : Type} (o : option A) : M A :=
  fun tr => match o with Some a => Done (Ok a) tr | None => Diverge end.

(** ** The Reducer *)

(** [client = OpenAI(api_key=OPENAI_API_KEY) if OPENAI_API_KEY else None] *)
Definition client (env : Env) : option OpenAI :=
  match OPENAI_API_KEY env with
  | Some k => if truthy k then Some {| api_key := k |} else None
  | None => None
  end.

Definition mk_request (system user : str) : request :=
  {| model := Msg.MODEL;
     messages := [ {| role := Msg.ROLE_SYSTEM; content := system |};
                   {| role := Msg.ROLE_USER; content := user |} ];
     temperature := QArith_base.Qmake 3 10 |}.

(** The request of lines 57 to 64 for the fragment [ch]. *)
Definition chunk_request (ch : str) : request :=
  mk_request Msg.CHUNK_SYSTEM (Msg.CHUNK_USER_PREFIX ++ ch).

(** The request of lines 68 to 75. *)
Definition final_request (final_input : str) : request :=
  mk_request Msg.FINAL_SYSTEM (Msg.FINAL_USER_PREFIX ++ final_input).

(** [resp.choices[0].message.content.strip()] *)
Definition stripped_content (resp : response) : result str :=
  match choices resp with
  | [] => Raise (Exception Msg.INDEX_ERROR)
  | None :: _ => Raise (Exception Msg.NONE_STRIP)
  | Some s :: _ => Ok (strip s)
  end.

Section Program.
Variable w : World.

Definition completions_create (c : OpenAI) (req : request) : M response :=
  call (fun tr => create w tr c req) (EvCreate c req).

(** The [for] loop of lines 55 to 65; [partial_summaries] is the list
    that the loop appends to. *)
Fixpoint summarize_chunks (c : OpenAI) (chunks : list str)
    (partial_summaries : list str) : M (list str) :=
  match chunks with
  | [] => ret partial_summaries
  | ch :: rest =>
    resp <- completions_create c (chunk_request ch) ;;
    s <- of_result (stripped_content resp) ;;
    summarize_chunks c rest (partial_summaries ++ [s])
  end.

(** Lines 67 to 76. *)
Definition final_reduction (c : OpenAI) (partial_summaries : list str)
    : M str :=
  let final_input := join Msg.SEPARATOR partial_summaries in
  final <- completions_create c (final_request final_input) ;;
  of_result (stripped_content final).

(** [summarize_text(text)].  The log lines of the loop are left out. *)
Definition summarize_text (env : Env) (text : str) : M str :=
  emit (EvSummarizeText text) ;;;
  match client env with
  | None => ret Msg.NO_API_KEY
  | Some c =>
    chunks <- of_loop (chunk_text text 10000) ;;
    partial_summaries <- summarize_chunks c chunks [] ;;
    final_reduction c partial_summaries
  end.

(** ** The Retriever *)

Definition raise_for_status (r : http_response) : M unit :=
  if (400 <=? status_code r) && (status_code r <? 600)
  then raise (Exception (http_error r))
  else ret tt.

(** [for chunk in r.iter_content(...): if chunk: f.write(chunk)] *)
Fixpoint write_chunks (dest_path : str) (chunks : list (list N))
    (err : option exn) : M unit :=
  match chunks with
  | [] => match err with Some e => raise e | None => ret tt end
  | chunk :: rest =>
    match chunk with
    | [] => write_chunks dest_path rest err
    | _ :: _ =>
      call (fun tr => write w tr dest_path chunk) (EvWrite dest_path chunk) ;;;
      write_chunks dest_path rest err
    end
  end.

(** [download_file(file_url, dest_path)] *)
Definition download_file (file_url dest_path : str) : M unit :=
  r <- call (fun tr => requests_get w tr file_url) (EvRequestsGet file_url) ;;
  raise_for_status r ;;;
  call (fun tr => open_wb w tr dest_path) (EvOpen dest_path) ;;;
  write_chunks dest_path (body_chunks r) (body_error r).

(** ** The Request Handler *)

Definition message_reply_text (text : str) : M unit :=
  call (fun tr => reply_text w tr text) (EvReplyText text).

(** [document.mime_type != "application/pdf"] *)
Definition mime_differs (d : Document) : bool :=
  match mime_type d with
  | Some m => negb (str_eqb m Msg.MIME_PDF)
  | None => true
  end.

(** [document.file_name or "file.pdf"] *)
Definition file_name_or_default (d : Document) : str :=
  match file_name d with
  | Some n => if truthy n then n else Msg.DEFAULT_FILE_NAME
  | None => Msg.DEFAULT_FILE_NAME
  end.

(** The body of the [try] of lines 100 to 111. *)
Definition process_document (env : Env) (d : Document) : M unit :=
  file_url <- call (fun tr => get_file w tr (file_id d))
                   (EvGetFile (file_id d)) ;;
  message_reply_text Msg.RECEIVED ;;;
  with_resource
    (call (mkdtemp w) EvMkdtemp)
    (fun tmpdir => call (fun tr => cleanup w tr tmpdir) (EvCleanup tmpdir))
    (fun tmpdir =>
       let pdf_path := path_join w tmpdir (file_name_or_default d) in
       download_file file_url pdf_path ;;;
       text <- call (fun tr => extract_text w tr pdf_path)
                    (EvExtractText pdf_path) ;;
       if negb (truthy (strip text))
       then message_reply_text Msg.NO_TEXT
       else
         summary <- summarize_text env text ;;
         message_reply_text summary).

(** [handle_document(update, context)].  Reading [message.document]
    when [update.message] is [None] raises [AttributeError], before the
    [try].  The log line of the [except] clause is left out. *)
Definition handle_document (env : Env) (update : Update) : M unit :=
  let message := message update in
  match message with
  | None => raise (Exception Msg.NONE_DOCUMENT)
  | Some message =>
    match document message with
    | None => message_reply_text Msg.ONLY_PDF
    | Some d =>
      if mime_differs d
      then message_reply_text Msg.ONLY_PDF
      else
        try_except (process_document env d)
          (fun e => message_reply_text (Msg.ERROR_PREFIX ++ exn_str e))
    end
  end.

End Program.

(** ** Vocabulary of the statements *)

(** [tiles text off chunks]: the chunks lie in [text] one after the
    other, the first at offset [off] and the last ending where [text]
    ends; each is the slice of [text] at its place. *)
Fixpoint tiles (text : str) (off : Z) (chunks : list str) : Prop :=
  match chunks with
  | [] => off = len text
  | c :: cs =>
    0 <= off /\ off + len c <= len text
    /\ c = py_slice text off (off + len c)
    /\ tiles text (off + len c) cs
  end.

(** The ceiling of [a / b], by the floor of the opposite. *)
Definition ceil_div (a b : Z) : Z := - ((- a) / b).

(** A text is blank when it is empty or made of white space only. *)
Definition blank (text : str) : bool := forallb isspace text.

(** The request of a completion call, the summary read from its
    response, and the completion calls of a trace. *)
Definition request_of (ev : event) : option request :=
  match ev with
  | EvCreate _ req _ => Some req
  | _ => None
  end.

Definition summary_of (ev : event) : option str :=
  match ev with
  | EvCreate _ _ (Ok resp) =>
    match stripped_content resp with Ok s => Some s | Raise _ => None end
  | _ => None
  end.

Fixpoint completion_requests (tr : trace) : list request :=
  match tr with
  | [] => []
  | ev :: tr' =>
    match request_of ev with
    | Some req => req :: completion_requests tr'
    | None => completion_requests tr'
    end
  end.

(** A completion service that answers every call with a response whose
    first choice has a content. *)
Definition answers (w : World) : Prop :=
  forall tr c req, exists s rest,
    create w tr c req = Ok {| choices := Some s :: rest |}.


Definition is_reducer_event (ev : event) : bool :=
  match ev with
  | EvSummarizeText _ | EvCreate _ _ _ => true
  | _ => false
  end.

Definition is_retriever_event (ev : event) : bool :=
  match ev with
  | EvGetFile _ _ | EvMkdtemp _ | EvCleanup _ _ | EvRequestsGet _ _
  | EvOpen _ _ | EvWrite _ _ _ => true
  | _ => false
  end.

Definition is_extractor_event (ev : event) : bool :=
  match ev with
  | EvExtractText _ _ => true
  | _ => false
  end.

(** What [summarize_text] makes of the outcome of a completion call. *)
Definition read_response (r : result response) : result str :=
  match r with
  | Ok resp => stripped_content resp
  | Raise e => Raise e
  end.

(** A completion call that failed: the service raised, or its response
    could not be read. *)
Definition failed_call (ev : event) : bool :=
  match ev with
  | EvCreate _ _ r =>
    match read_response r with Ok _ => false | Raise _ => true end
  | _ => false
  end.


(** ** Sample worlds *)

(** Every collaborator succeeds; the extractor returns [extracted] and
    the completion service answers [" ok "] to every call. *)
Definition sample_world (extracted : str) : World :=
  {| reply_text := fun _ _ => Ok tt;
     get_file := fun _ _ => Ok [117; 114; 108]%N;
     mkdtemp := fun _ => Ok [47; 116; 109; 112]%N;
     cleanup := fun _ _ => Ok tt;
     requests_get := fun _ _ =>
       Ok {| status_code := 200; http_error := [];
             body_chunks := [[37; 80; 68; 70]%N]; body_error := None |};
     open_wb := fun _ _ => Ok tt;
     write := fun _ _ _ => Ok tt;
     extract_text := fun _ _ => Ok extracted;
     create := fun _ _ _ => Ok {| choices := [Some [32; 111; 107; 32]%N] |};
     path_join := fun d n => d ++ [47]%N ++ n |}.

(** The same, with a completion service that raises at every call. *)
Definition failing_world (extracted : str) : World :=
  {| reply_text := reply_text (sample_world extracted);
     get_file := get_file (sample_world extracted);
     mkdtemp := mkdtemp (sample_world extracted);
     cleanup := cleanup (sample_world extracted);
     requests_get := requests_get (sample_world extracted);
     open_wb := open_wb (sample_world extracted);
     write := write (sample_world extracted);
     extract_text := extract_text (sample_world extracted);
     create := fun _ _ _ => Raise (Exception [53; 48; 51]%N);
     path_join := path_join (sample_world extracted) |}.

Definition sample_env : Env :=
  {| TELEGRAM_BOT_TOKEN := Some [116]%N; OPENAI_API_KEY := Some [107]%N |}.

Definition sample_client : OpenAI := {| api_key := [107]%N |}.

Definition no_key_env : Env :=
  {| TELEGRAM_BOT_TOKEN := Some [116]%N; OPENAI_API_KEY := None |}.

(** The message of an update, whatever its kind, as the messaging
    library's filters read it ([update.effective_message]). *)
Definition effective_message (update : Update) : option Message :=
  match message update with
  | Some m => Some m
  | None =>
    match edited_message update with
    | Some m => Some m
    | None =>
      match channel_post update with
      | Some m => Some m
      | None => edited_channel_post update
      end
    end
  end.

(** The document of [update.message], when there is a message and it
    carries one. *)
Definition update_document (update : Update) : option Document :=
  match message update with
  | Some m => document m
  | None => None
  end.

Definition new_message (m : Message) : Update :=
  {| message := Some m; edited_message := None; channel_post := None;
     edited_channel_post := None |}.

Definition png_document : Document :=
  {| file_id := [105; 100]%N;
     mime_type := Some [105; 109; 97; 103; 101; 47; 112; 110; 103]%N;
     file_name := None |}.

Definition pdf_update : Update :=
  new_message
    {| document :=
         Some {| file_id := [105; 100]%N;
                 mime_type := Some Msg.MIME_PDF;
                 file_name := None |} |}.

Definition png_update : Update :=
  new_message {| document := Some png_document |}.

(** A message with an image that its sender has edited: the update
    carries it in [edited_message], and [message] is absent. *)
Definition edited_png_update : Update :=
  {| message := None;
     edited_message := Some {| document := Some png_document |};
     channel_post := None; edited_channel_post := None |}.

(** A text of 25,000 characters. *)
Definition long_text : str := repeat 120%N (Z.to_nat 25000).

(** ** Vocabulary of the further properties *)

Definition is_create_event (ev : event) : bool :=
  match ev with
  | EvCreate _ _ _ => true
  | _ => false
  end.

(** A completion call made through the client [c]. *)
Definition created_by (c : OpenAI) (ev : event) : Prop :=
  match ev with
  | EvCreate c' _ _ => c' = c
  | _ => False
  end.

(** An event of [download_file file_url dest_path]. *)
Definition download_event (file_url dest_path : str) (ev : event) : Prop :=
  match ev with
  | EvRequestsGet u _ => u = file_url
  | EvOpen p _ => p = dest_path
  | EvWrite p _ _ => p = dest_path
  | _ => False
  end.

(** The destination file is opened or written. *)
Definition is_file_event (ev : event) : bool :=
  match ev with
  | EvOpen _ _ | EvWrite _ _ _ => true
  | _ => false
  end.

(** The path of the file an event writes or reads. *)
Definition file_path_of (ev : event) : option str :=
  match ev with
  | EvOpen p _ | EvWrite p _ _ | EvExtractText p _ => Some p
  | _ => None
  end.

(** The chunks of a body that [download_file] writes, and the writes. *)
Definition nonempty_chunks (chunks : list (list N)) : list (list N) :=
  filter (fun chunk => match chunk with [] => false | _ :: _ => true end)
         chunks.

Definition write_events (dest_path : str) (chunks : list (list N)) : trace :=
  map (fun chunk => EvWrite dest_path chunk (Ok tt)) (nonempty_chunks chunks).

(** The outcome of a [with] block whose body ended in [r] and whose
    release ended in [rc]. *)
Definition released {A : Type} (r : result A) (rc : result unit) : result A :=
  match rc with
  | Ok _ => r
  | Raise e => Raise e
  end.

(** The shapes of a run of the [with] body of [handle_document] from the
    extraction on, with its outcome. *)
Inductive body_run (pdf_path : str) : result unit -> trace -> Prop :=
| body_extract_raised (e : exn) :
    body_run pdf_path (Raise e) [EvExtractText pdf_path (Raise e)]
| body_no_text (text : str) (rr : result unit) :
    blank text = true ->
    body_run pdf_path rr
      [EvExtractText pdf_path (Ok text); EvReplyText Msg.NO_TEXT rr]
| body_replied (text : str) (calls : trace) (summary : str)
    (rr : result unit) :
    blank text = false -> forallb is_create_event calls = true ->
    body_run pdf_path rr
      (EvExtractText pdf_path (Ok text) :: EvSummarizeText text
         :: calls ++ [EvReplyText summary rr])
| body_summary_raised (text : str) (calls : trace) (e : exn) :
    blank text = false -> forallb is_create_event calls = true ->
    body_run pdf_path (Raise e)
      (EvExtractText pdf_path (Ok text) :: EvSummarizeText text :: calls).

(** The shapes of a run of the [try] body for the document [d]. *)
Inductive process_run (w : World) (d : Document)
    : result unit -> trace -> Prop :=
| run_get_file_raised (e : exn) :
    process_run w d (Raise e) [EvGetFile (file_id d) (Raise e)]
| run_received_raised (url : str) (e : exn) :
    process_run w d (Raise e)
      [EvGetFile (file_id d) (Ok url); EvReplyText Msg.RECEIVED (Raise e)]
| run_mkdtemp_raised (url : str) (e : exn) :
    process_run w d (Raise e)
      [EvGetFile (file_id d) (Ok url); EvReplyText Msg.RECEIVED (Ok tt);
       EvMkdtemp (Raise e)]
| run_download_raised (url dir : str) (dl : trace) (e : exn)
    (rc : result unit) :
    Forall (download_event url
              (path_join w dir (file_name_or_default d))) dl ->
    process_run w d (released (Raise e) rc)
      ([EvGetFile (file_id d) (Ok url); EvReplyText Msg.RECEIVED (Ok tt);
        EvMkdtemp (Ok dir)] ++ dl ++ [EvCleanup dir rc])
| run_body (url dir : str) (dl body : trace) (r rc : result unit) :
    Forall (download_event url
              (path_join w dir (file_name_or_default d))) dl ->
    body_run (path_join w dir (file_name_or_default d)) r body ->
    process_run w d (released r rc)
      ([EvGetFile (file_id d) (Ok url); EvReplyText Msg.RECEIVED (Ok tt);
        EvMkdtemp (Ok dir)] ++ dl ++ body ++ [EvCleanup dir rc]).

(** The shapes of a run of [handle_document]. *)
Inductive handler_run (w : World) (update : Update)
    : result unit -> trace -> Prop :=
| run_no_message :
    message update = None ->
    handler_run w update (Raise (Exception Msg.NONE_DOCUMENT)) []
| run_rejected (rr : result unit) :
    message update <> None ->
    (forall d, update_document update = Some d -> mime_differs d = true) ->
    handler_run w update rr [EvReplyText Msg.ONLY_PDF rr]
| run_processed (d : Document) (r : result unit) (new : trace) :
    update_document update = Some d -> mime_differs d = false ->
    process_run w d r new ->
    (forall dsc, r <> Raise (Exception dsc)) ->
    handler_run w update r new
| run_recovered (d : Document) (dsc : str) (new : trace)
    (rr : result unit) :
    update_document update = Some d -> mime_differs d = false ->
    process_run w d (Raise (Exception dsc)) new ->
    handler_run w update rr
      (new ++ [EvReplyText (Msg.ERROR_PREFIX ++ dsc) rr]).

(** The string is empty or starts with a character that is not white
    space. *)
Definition starts_clean (s : str) : Prop :=
  match s with
  | [] => True
  | c :: _ => isspace c = false
  end.

(** What an event of a run can be once the temporary directory [dir]
    exists, for the document [d]: the creation of the directory or its
    release, an event of the download into the file of [d] in [dir], the
    extraction from that file, the entry into [summarize_text] on a text
    that was extracted and is not blank, a completion call, or a
    reply. *)
Definition in_scope (w : World) (d : Document) (dir : str) (new : trace)
    (ev : event) : Prop :=
  let path := path_join w dir (file_name_or_default d) in
  ev = EvMkdtemp (Ok dir)
  \/ (exists rc, ev = EvCleanup dir rc)
  \/ (exists url, download_event url path ev)
  \/ (exists rx, ev = EvExtractText path rx)
  \/ (exists text,
        ev = EvSummarizeText text /\ blank text = false
        /\ In (EvExtractText path (Ok text)) new)
  \/ is_create_event ev = true
  \/ (exists msg rr, ev = EvReplyText msg rr).


(** The sample world with a network that is down: [requests.get]
    raises. *)
Definition offline_world : World :=
  {| reply_text := reply_text (sample_world []);
     get_file := get_file (sample_world []);
     mkdtemp := mkdtemp (sample_world []);
     cleanup := cleanup (sample_world []);
     requests_get := fun _ _ =>
       Raise (Exception [116; 105; 109; 101; 111; 117; 116]%N);
     open_wb := open_wb (sample_world []);
     write := write (sample_world []);
     extract_text := extract_text (sample_world []);
     create := create (sample_world []);
     path_join := path_join (sample_world []) |}.

(** The sample world with a file server that answers 404. *)
Definition not_found_world : World :=
  {| reply_text := reply_text (sample_world []);
     get_file := get_file (sample_world []);
     mkdtemp := mkdtemp (sample_world []);
     cleanup := cleanup (sample_world []);
     requests_get := fun _ _ =>
       Ok {| status_code := 404; http_error := [52; 48; 52]%N;
             body_chunks := [[110; 111]%N]; body_error := None |};
     open_wb := open_wb (sample_world []);
     write := write (sample_world []);
     extract_text := extract_text (sample_world []);
     create := create (sample_world []);
     path_join := path_join (sample_world []) |}.

(** ** Slices *)

Lemma len_nonneg {A : Type} (s : list A) : 0 <= len s.
Proof. unfold len. lia. Qed.

Lemma len_app {A : Type} (s t : list A) : len (s ++ t) = len s + len t.
Proof. unfold len. rewrite length_app. lia. Qed.

Lemma len_nil_iff {A : Type} (s : list A) : len s = 0 <-> s = [].
Proof.
  unfold len. destruct s as [|a s]; simpl; split; intro H;
    try reflexivity; try discriminate; lia.
Qed.

Lemma py_slice_in_range {A : Type} (s : list A) (a b : Z) :
  0 <= a -> a <= b -> b <= len s ->
  py_slice s a b = firstn (Z.to_nat (b - a)) (skipn (Z.to_nat a) s).
Proof.
  intros Ha Hab Hb. unfold py_slice, slice_bound.
  destruct (Z.ltb_spec a 0) as [Hn|_]; [lia|].
  destruct (Z.ltb_spec b 0) as [Hn|_]; [lia|].
  rewrite !Z.min_l by lia. reflexivity.
Qed.

Lemma len_py_slice {A : Type} (s : list A) (a b : Z) :
  0 <= a -> a <= b -> b <= len s -> len (py_slice s a b) = b - a.
Proof.
  intros Ha Hab Hb. rewrite py_slice_in_range by assumption.
  unfold len in *. rewrite length_firstn, length_skipn. lia.
Qed.

Lemma py_slice_whole {A : Type} (s : list A) : py_slice s 0 (len s) = s.
Proof.
  rewrite py_slice_in_range by (pose proof (len_nonneg s); lia).
  simpl. unfold len. rewrite Z.sub_0_r, Nat2Z.id. apply firstn_all.
Qed.

(** A slice followed by the rest of the text is the text from the
    start of the slice on. *)
Lemma py_slice_then_rest {A : Type} (s : list A) (a b : Z) :
  0 <= a -> a <= b -> b <= len s ->
  py_slice s a b ++ skipn (Z.to_nat b) s = skipn (Z.to_nat a) s.
Proof.
  intros Ha Hab Hb. rewrite py_slice_in_range by assumption.
  replace (Z.to_nat b) with (Z.to_nat (b - a) + Z.to_nat a)%nat by lia.
  rewrite <- skipn_skipn. apply firstn_skipn.
Qed.

(** ** The loop of the Chunker *)

Lemma chunk_loop_exit (fuel : nat) (text : str) (mc start : Z)
    (acc : list str) :
  len text <= start -> chunk_loop fuel text mc start acc = Some acc.
Proof.
  intro H. destruct fuel; simpl;
    destruct (Z.ltb_spec start (len text)); try lia; reflexivity.
Qed.

Lemma chunk_loop_iter (fuel : nat) (text : str) (mc start : Z)
    (acc : list str) :
  start < len text ->
  chunk_loop (S fuel) text mc start acc
  = chunk_loop fuel text mc (chunk_end text mc start)
      (acc ++ [py_slice text start (chunk_end text mc start)]).
Proof.
  intro H. simpl. destruct (Z.ltb_spec start (len text)); [reflexivity|lia].
Qed.

(** Each iteration moves [start] forward, by [max_chars] or by what is
    left of the text. *)
Lemma chunk_end_advances (text : str) (mc start : Z) :
  1 <= mc -> 0 <= start < len text ->
  start < chunk_end text mc start <= len text
  /\ chunk_end text mc start - start = Z.min mc (len text - start).
Proof. unfold chunk_end. lia. Qed.

(** Number of fragments: the two cases of one more iteration. *)
Lemma ceil_step_last (r mc : Z) :
  1 <= r -> r <= mc -> (r + mc - 1) / mc = 1.
Proof.
  intros Hr Hm. symmetry. apply Z.div_unique with (r := r - 1); lia.
Qed.

Lemma ceil_step_more (r mc : Z) :
  1 <= mc -> (r - mc + mc - 1) / mc + 1 = (r + mc - 1) / mc.
Proof.
  intro Hm. replace (r + mc - 1) with (r - mc + mc - 1 + 1 * mc) by lia.
  rewrite Z.div_add by lia. reflexivity.
Qed.

Lemma ceil_div_spec (a b : Z) : 1 <= b -> ceil_div a b = (a + b - 1) / b.
Proof.
  intro Hb. unfold ceil_div.
  pose proof (Z.div_mod (- a) b ltac:(lia)) as E.
  pose proof (Z.mod_pos_bound (- a) b ltac:(lia)) as B.
  apply Z.div_unique with (r := b - 1 - (- a) mod b); lia.
Qed.

(** What the loop computes from any point of its run. *)
Lemma chunk_loop_spec (fuel : nat) :
  forall (text : str) (mc start : Z) (acc : list str),
    1 <= mc -> 0 <= start <= len text ->
    len text - start <= Z.of_nat fuel ->
    exists cs,
      chunk_loop fuel text mc start acc = Some (acc ++ cs)
      /\ tiles text start cs
      /\ concat cs = skipn (Z.to_nat start) text
      /\ Forall (fun c => 1 <= len c <= mc) cs
      /\ Forall (fun c => len c = mc) (removelast cs)
      /\ len cs = (len text - start + mc - 1) / mc.
Proof.
  induction fuel as [|fuel IH]; intros text mc start acc Hmc Hs Hf.
  - assert (start = len text) as -> by lia.
    exists []. rewrite chunk_loop_exit, app_nil_r by lia.
    repeat split; simpl; auto.
    + unfold len. rewrite Nat2Z.id, skipn_all. reflexivity.
    + rewrite Z.sub_diag. simpl. symmetry. apply Z.div_small. lia.
  - destruct (Z.lt_ge_cases start (len text)) as [Hlt|Hge].
    + destruct (chunk_end_advances text (mc := mc) (start := start))
        as [[He1 He2] He3]; [lia|lia|].
      set (e := chunk_end text mc start) in *.
      assert (Hlen : len (py_slice text start e) = e - start)
        by (apply len_py_slice; lia).
      destruct (IH text mc e (acc ++ [py_slice text start e]))
        as (cs & Hrun & Ht & Hc & Hb & Hfull & Hn); [lia|lia|lia|].
      exists (py_slice text start e :: cs).
      rewrite chunk_loop_iter by assumption. fold e.
      rewrite Hrun, <- app_assoc. simpl.
      repeat split; try lia.
      * rewrite Hlen. f_equal. lia.
      * rewrite Hlen. replace (start + (e - start)) with e by lia. exact Ht.
      * rewrite Hc. apply py_slice_then_rest; lia.
      * constructor; [lia|exact Hb].
      * destruct cs as [|c cs]; [constructor|].
        constructor; [|exact Hfull].
        assert (e <> len text).
        { intro E. rewrite E, Z.sub_diag in Hn. simpl in Hn.
          rewrite Z.div_small in Hn by lia. unfold len in Hn.
          simpl in Hn. lia. }
        lia.
      * change (len (py_slice text start e :: cs)) with
          (Z.of_nat (S (length cs))).
        rewrite Nat2Z.inj_succ. fold (len cs). rewrite Hn.
        destruct (Z.eq_dec e (len text)) as [E|E].
        -- rewrite E, Z.sub_diag. simpl. rewrite Z.div_small by lia.
           rewrite ceil_step_last; lia.
        -- replace e with (start + mc) by lia.
           replace (len text - (start + mc) + mc - 1)
             with (len text - start - mc + mc - 1) by lia.
           pose proof (@ceil_step_more (len text - start) mc Hmc). lia.
    + assert (start = len text) as -> by lia.
      exists []. rewrite chunk_loop_exit, app_nil_r by lia.
      repeat split; simpl; auto.
      * unfold len. rewrite Nat2Z.id, skipn_all. reflexivity.
      * rewrite Z.sub_diag. simpl. symmetry. apply Z.div_small. lia.
Qed.

(** More fuel than the loop needs changes nothing. *)
Lemma chunk_loop_more_fuel (fuel : nat) :
  forall (fuel' : nat) (text : str) (mc start : Z) (acc r : list str),
    chunk_loop fuel text mc start acc = Some r ->
    (fuel <= fuel')%nat ->
    chunk_loop fuel' text mc start acc = Some r.
Proof.
  induction fuel as [|fuel IH]; intros fuel' text mc start acc r H Hle.
  - simpl in H. destruct (Z.ltb_spec start (len text)); [discriminate|].
    rewrite chunk_loop_exit by lia. exact H.
  - destruct (Z.lt_ge_cases start (len text)) as [Hlt|Hge].
    + destruct fuel' as [|fuel']; [lia|].
      rewrite chunk_loop_iter in * by assumption.
      apply IH; [exact H|lia].
    + rewrite chunk_loop_exit in * by lia. exact H.
Qed.

(** With [max_chars <= 0] the index never moves forward: the loop,
    once entered, has no end. *)
Lemma chunk_loop_stuck (fuel : nat) :
  forall (text : str) (mc start : Z) (acc : list str),
    mc <= 0 -> start <= 0 -> 0 < len text ->
    chunk_loop fuel text mc start acc = None.
Proof.
  induction fuel as [|fuel IH]; intros text mc start acc Hmc Hs Hl.
  - simpl. destruct (Z.ltb_spec start (len text)); [reflexivity|lia].
  - rewrite chunk_loop_iter by lia. apply IH; unfold chunk_end; lia.
Qed.

Lemma chunk_text_spec (text : str) (mc : Z) :
  1 <= mc ->
  exists chunks,
    chunk_text text mc = Some chunks
    /\ tiles text 0 chunks
    /\ concat chunks = text
    /\ Forall (fun c => 1 <= len c <= mc) chunks
    /\ Forall (fun c => len c = mc) (removelast chunks)
    /\ len chunks = (len text + mc - 1) / mc.
Proof.
  intro Hmc.
  destruct (chunk_loop_spec (length text) text (mc := mc) (start := 0) [])
    as (cs & Hrun & Ht & Hc & Hb & Hfull & Hn);
    [lia|pose proof (len_nonneg text); lia|unfold len; lia|].
  exists cs. unfold chunk_text. rewrite Hrun. simpl in *.
  rewrite Z.sub_0_r in Hn. auto 10.
Qed.

(** [chunk_text] is [None] exactly when no amount of fuel ends the
    loop. *)
Lemma chunk_text_None_iff (text : str) (mc : Z) :
  chunk_text text mc = None
  <-> forall fuel, chunk_loop fuel text mc 0 [] = None.
Proof.
  split.
  - intros H fuel. destruct (Z.le_gt_cases 1 mc) as [Hmc|Hmc].
    + destruct (chunk_text_spec text Hmc) as (cs & E & _). congruence.
    + destruct text as [|a text]; [discriminate H|].
      apply chunk_loop_stuck; unfold len; simpl; lia.
  - intro H. apply H.
Qed.

(** ** The Chunker: properties *)

(** C1. For every text and every positive [max_chars], [chunk_text]
    returns fragments that lie in the text one after the other, from its
    first character to its last (contiguous, without overlap), whose
    concatenation is the text, and each of length at most [max_chars],
    the last included. *)
Theorem chunk_text_partition (text : str) (max_chars : Z) :
  0 < max_chars ->
  exists chunks,
    chunk_text text max_chars = Some chunks
    /\ tiles text 0 chunks
    /\ concat chunks = text
    /\ Forall (fun c => len c <= max_chars) chunks.
Proof.
  intro Hmc.
  destruct (@chunk_text_spec text max_chars) as (cs & E & Ht & Hc & Hb & _);
    [lia|].
  exists cs. repeat split; try assumption.
  eapply Forall_impl; [|exact Hb]. simpl. intros c Hcb. lia.
Qed.

Lemma chunk_text_partition_witness :
  0 < 2
  /\ exists chunks,
       chunk_text [104; 101; 108; 108; 111]%N 2 = Some chunks
       /\ tiles [104; 101; 108; 108; 111]%N 0 chunks
       /\ concat chunks = [104; 101; 108; 108; 111]%N
       /\ Forall (fun c => len c <= 2) chunks.
Proof. split; [lia | apply chunk_text_partition; lia]. Defined.

(** C2, as the code has it. For every text that is not empty and every
    [max_chars] at least its length, [chunk_text] returns one fragment,
    the text itself. *)
Theorem chunk_text_single (text : str) (max_chars : Z) :
  text <> [] -> len text <= max_chars ->
  chunk_text text max_chars = Some [text].
Proof.
  intros Hne Hle. unfold chunk_text.
  destruct text as [|a text]; [congruence|].
  set (t := a :: text) in *.
  assert (Hpos : 0 < len t) by (unfold len, t; simpl; lia).
  change (length t) with (S (length text)).
  rewrite chunk_loop_iter by assumption.
  assert (E : chunk_end t max_chars 0 = len t) by (unfold chunk_end; lia).
  rewrite E, py_slice_whole. apply chunk_loop_exit. lia.
Qed.

Lemma chunk_text_single_witness :
  [112; 100; 102]%N <> [] /\ len [112; 100; 102]%N <= 3
  /\ chunk_text [112; 100; 102]%N 3 = Some [[112; 100; 102]%N].
Proof.
  assert (H1 : [112; 100; 102]%N <> []) by discriminate.
  assert (H2 : len [112; 100; 102]%N <= 3) by (vm_compute; discriminate).
  exact (conj H1 (conj H2 (chunk_text_single H1 H2))).
Defined.

(** C2, as the specification words it, fails on the empty text: its
    length is at most any [max_chars >= 0], and [chunk_text] returns no
    fragment at all rather than one empty fragment. *)
Lemma chunk_text_single_fails_on_empty :
  len (@nil char) <= 5
  /\ chunk_text [] 5 = Some []
  /\ chunk_text [] 5 <> Some [[]].
Proof. repeat split; [vm_compute; discriminate | discriminate]. Qed.

(** C3. For the empty text and every positive [max_chars],
    [chunk_text] returns the empty sequence. *)
Theorem chunk_text_empty (max_chars : Z) :
  0 < max_chars -> chunk_text [] max_chars = Some [].
Proof. intros _. reflexivity. Qed.

Lemma chunk_text_empty_witness : 0 < 10000 /\ chunk_text [] 10000 = Some [].
Proof. split; [lia | apply chunk_text_empty; lia]. Defined.

(** C9. For every text and every [max_chars >= 1] the loop of
    [chunk_text] ends: [chunk_text] returns, and so does the loop on
    any larger amount of fuel; at each iteration [start] grows, by the
    smaller of [max_chars] and what remains.  Positivity is needed:
    with [max_chars <= 0] and a text that is not empty, no amount of
    fuel ends the loop. *)
Theorem chunk_text_terminates (text : str) (max_chars : Z) :
  (1 <= max_chars ->
     (exists chunks,
        chunk_text text max_chars = Some chunks
        /\ forall fuel, (length text <= fuel)%nat ->
             chunk_loop fuel text max_chars 0 [] = Some chunks)
     /\ forall start, 0 <= start < len text ->
          start < chunk_end text max_chars start <= len text
          /\ chunk_end text max_chars start - start
             = Z.min max_chars (len text - start))
  /\ (max_chars <= 0 -> text <> [] ->
        chunk_text text max_chars = None
        /\ forall fuel, chunk_loop fuel text max_chars 0 [] = None).
Proof.
  split.
  - intro Hmc. split.
    + destruct (chunk_text_spec text Hmc) as (cs & E & _).
      exists cs. split; [exact E|].
      intros fuel Hf. eapply chunk_loop_more_fuel; [exact E|exact Hf].
    + intros start Hs. apply chunk_end_advances; assumption.
  - intros Hmc Hne.
    assert (H : forall fuel, chunk_loop fuel text max_chars 0 [] = None).
    { intro fuel. apply chunk_loop_stuck; try lia.
      destruct text; [congruence|]. unfold len. simpl. lia. }
    split; [apply chunk_text_None_iff|]; exact H.
Qed.

Lemma chunk_text_terminates_witness :
  (exists chunks, chunk_text [97; 98; 99]%N 2 = Some chunks)
  /\ chunk_text [97; 98; 99]%N 0 = None.
Proof.
  destruct (chunk_text_terminates [97; 98; 99]%N 2) as [Hpos _].
  destruct (chunk_text_terminates [97; 98; 99]%N 0) as [_ Hneg].
  split.
  - destruct Hpos as [(chunks & E & _) _]; [lia|]. exists chunks. exact E.
  - apply Hneg; [lia | discriminate].
Defined.

(** C10. For every text that is not empty and every positive
    [max_chars], every fragment returned by [chunk_text] but possibly
    the last has length [max_chars], no fragment is empty, and the
    number [n] of fragments is the ceiling of [len text / max_chars]:
    [max_chars * (n - 1) < len text <= max_chars * n]. *)
Theorem chunk_text_shape (text : str) (max_chars : Z) :
  text <> [] -> 0 < max_chars ->
  exists chunks,
    chunk_text text max_chars = Some chunks
    /\ Forall (fun c => len c = max_chars) (removelast chunks)
    /\ Forall (fun c => c <> []) chunks
    /\ len chunks = ceil_div (len text) max_chars
    /\ max_chars * (len chunks - 1) < len text <= max_chars * len chunks.
Proof.
  intros Hne Hmc.
  destruct (@chunk_text_spec text max_chars)
    as (cs & E & _ & _ & Hb & Hfull & Hn); [lia|].
  exists cs. split; [exact E|]. split; [exact Hfull|]. split.
  - eapply Forall_impl; [|exact Hb]. simpl. intros c Hc Hnil.
    subst c. unfold len in Hc. simpl in Hc. lia.
  - rewrite ceil_div_spec by lia. split; [exact Hn|].
    rewrite Hn.
    pose proof (Z.div_mod (len text + max_chars - 1) max_chars ltac:(lia)).
    pose proof (Z.mod_pos_bound (len text + max_chars - 1) max_chars
                  ltac:(lia)).
    lia.
Qed.

Lemma chunk_text_shape_witness :
  exists chunks,
    chunk_text [97; 98; 99; 100; 101]%N 2 = Some chunks
    /\ Forall (fun c => len c = 2) (removelast chunks)
    /\ Forall (fun c => c <> []) chunks
    /\ len chunks = ceil_div (len [97; 98; 99; 100; 101]%N) 2
    /\ 2 * (len chunks - 1) < len [97; 98; 99; 100; 101]%N
       <= 2 * len chunks.
Proof.
  apply chunk_text_shape; [discriminate | lia].
Defined.

(** ** The Reducer: runs *)

Lemma completion_requests_app (t1 t2 : trace) :
  completion_requests (t1 ++ t2)
  = completion_requests t1 ++ completion_requests t2.
Proof.
  induction t1 as [|ev t1 IH]; simpl; [reflexivity|].
  destruct (request_of ev); simpl; rewrite IH; reflexivity.
Qed.

Lemma completion_requests_of_map (evs : trace) (reqs : list request) :
  map request_of evs = map Some reqs -> completion_requests evs = reqs.
Proof.
  revert reqs. induction evs as [|ev evs IH]; intros [|req reqs] H;
    try discriminate H; [reflexivity|].
  simpl in *. injection H as -> H. f_equal. apply IH. exact H.
Qed.

Section ReducerRuns.
Variable w : World.

Lemma completions_create_run (c : OpenAI) (req : request) (tr : trace) :
  completions_create w c req tr
  = Done (create w tr c req) (tr ++ [EvCreate c req (create w tr c req)]).
Proof. reflexivity. Qed.

Lemma final_reduction_run (c : OpenAI) (ps : list str) (tr : trace) :
  final_reduction w c ps tr
  = Done (read_response
            (create w tr c (final_request (join Msg.SEPARATOR ps))))
         (tr ++ [EvCreate c (final_request (join Msg.SEPARATOR ps))
                   (create w tr c (final_request (join Msg.SEPARATOR ps)))]).
Proof.
  unfold final_reduction, bind. rewrite completions_create_run.
  destruct (create w tr c (final_request (join Msg.SEPARATOR ps)));
    reflexivity.
Qed.

(** The loop over the fragments: it asks for the fragments in order and
    stops at the first call that fails; when none fails, it has read one
    summary from each call, in order. *)
Lemma summarize_chunks_run (c : OpenAI) (chunks : list str) :
  forall (acc : list str) (tr : trace),
  exists r evs,
    summarize_chunks w c chunks acc tr = Done r (tr ++ evs)
    /\ map request_of evs
       = map (fun ch => Some (chunk_request ch))
             (firstn (length evs) chunks)
    /\ forallb is_reducer_event evs = true
    /\ existsb failed_call evs
       = match r with Ok _ => false | Raise _ => true end
    /\ forall ps, r = Ok ps ->
         exists new,
           ps = acc ++ new
           /\ length new = length chunks
           /\ length evs = length chunks
           /\ map summary_of evs = map Some new.
Proof.
  induction chunks as [|ch rest IH]; intros acc tr.
  - exists (Ok acc), []. simpl. unfold ret. rewrite app_nil_r.
    repeat split. intros ps [= <-]. exists []. rewrite app_nil_r. auto.
  - cbn [summarize_chunks]. unfold bind at 1.
    rewrite completions_create_run.
    set (ev := EvCreate c (chunk_request ch)
                 (create w tr c (chunk_request ch))).
    assert (Hev : failed_call ev
                  = match read_response (create w tr c (chunk_request ch))
                    with Ok _ => false | Raise _ => true end)
      by reflexivity.
    assert (Hsum : summary_of ev
                   = match read_response (create w tr c (chunk_request ch))
                     with Ok s => Some s | Raise _ => None end).
    { unfold ev, summary_of, read_response.
      destruct (create w tr c (chunk_request ch)); reflexivity. }
    assert (Hrq : request_of ev = Some (chunk_request ch)) by reflexivity.
    assert (Hrd : is_reducer_event ev = true) by reflexivity.
    clearbody ev.
    destruct (create w tr c (chunk_request ch)) as [resp|e] eqn:Ec.
    + unfold bind at 1, of_result. simpl in Hev, Hsum.
      destruct (stripped_content resp) as [s|e] eqn:Es.
      * destruct (IH (acc ++ [s]) (tr ++ [ev]))
          as (r & evs & Hrun & Hreq & Hred & Hfail & Hok).
        exists r, (ev :: evs). rewrite Hrun, <- app_assoc.
        split; [reflexivity|].
        split; [simpl; rewrite Hrq, Hreq; reflexivity|].
        split; [simpl; rewrite Hrd; exact Hred|].
        split; [simpl; rewrite Hev; exact Hfail|].
        intros ps Hps. destruct (Hok ps Hps) as (new & -> & Hl & Hl2 & Hs).
        exists (s :: new). rewrite <- app_assoc. simpl.
        rewrite Hsum, Hl, Hl2, Hs. auto.
      * exists (Raise e), [ev]. simpl. rewrite Hev, Hrq, Hrd.
        repeat split. intros ps [=].
    + exists (Raise e), [ev]. simpl in *. rewrite Hev, Hrq, Hrd.
      repeat split. intros ps [=].
Qed.

(** With a service that answers every call, the loop returns. *)
Lemma summarize_chunks_answers (c : OpenAI) (chunks : list str) :
  answers w ->
  forall (acc : list str) (tr : trace),
  exists new evs,
    summarize_chunks w c chunks acc tr = Done (Ok (acc ++ new)) (tr ++ evs)
    /\ length new = length chunks
    /\ completion_requests evs = map chunk_request chunks.
Proof.
  intro Hw. induction chunks as [|ch rest IH]; intros acc tr.
  - exists [], []. simpl. unfold ret. rewrite !app_nil_r. auto.
  - cbn [summarize_chunks]. unfold bind at 1.
    rewrite completions_create_run.
    destruct (Hw tr c (chunk_request ch)) as (s & more & ->).
    unfold bind at 1, of_result.
    change (stripped_content {| choices := Some s :: more |})
      with (Ok (strip s)). cbv iota.
    destruct (IH (acc ++ [strip s])
                 (tr ++ [EvCreate c (chunk_request ch)
                           (Ok {| choices := Some s :: more |})]))
      as (new & evs & Hrun & Hl & Hreq).
    exists (strip s :: new),
      (EvCreate c (chunk_request ch) (Ok {| choices := Some s :: more |})
       :: evs).
    rewrite Hrun, <- !app_assoc. simpl. rewrite Hl, Hreq. auto.
Qed.

Lemma summarize_text_no_client (env : Env) (text : str) (tr : trace) :
  client env = None ->
  summarize_text w env text tr
  = Done (Ok Msg.NO_API_KEY) (tr ++ [EvSummarizeText text]).
Proof.
  intro Hc. unfold summarize_text, bind, emit. rewrite Hc. reflexivity.
Qed.

Lemma summarize_text_client (env : Env) (c : OpenAI) (text : str)
    (chunks : list str) (tr : trace) :
  client env = Some c -> chunk_text text 10000 = Some chunks ->
  summarize_text w env text tr
  = match summarize_chunks w c chunks [] (tr ++ [EvSummarizeText text]) with
    | Done (Ok ps) tr1 => final_reduction w c ps tr1
    | Done (Raise e) tr1 => Done (Raise e) tr1
    | Diverge => Diverge
    end.
Proof.
  intros Hc Hch. unfold summarize_text, bind, emit, of_loop.
  rewrite Hc, Hch. reflexivity.
Qed.

(** Every run of [summarize_text] ends; what it adds to the trace is its
    own entry and completion calls, and it raises exactly when one of
    these calls failed. *)
Lemma summarize_text_run (env : Env) (text : str) (tr : trace) :
  exists r evs,
    summarize_text w env text tr = Done r (tr ++ evs)
    /\ forallb is_reducer_event evs = true
    /\ existsb failed_call evs
       = match r with Ok _ => false | Raise _ => true end.
Proof.
  destruct (client env) as [c|] eqn:Hc.
  - destruct (@chunk_text_spec text 10000) as (chunks & Hch & _); [lia|].
    rewrite (@summarize_text_client env c text chunks tr Hc Hch).
    destruct (summarize_chunks_run c chunks [] (tr ++ [EvSummarizeText text]))
      as (r & evs & Hrun & _ & Hred & Hfail & _).
    rewrite Hrun. destruct r as [ps|e].
    + rewrite final_reduction_run.
      set (rf := create w _ c _).
      exists (read_response rf),
        ([EvSummarizeText text] ++ evs
           ++ [EvCreate c (final_request (join Msg.SEPARATOR ps)) rf]).
      rewrite <- !app_assoc. split; [reflexivity|].
      rewrite forallb_app, existsb_app, forallb_app, existsb_app.
      rewrite Hred, Hfail. simpl.
      destruct (read_response rf); auto.
    + exists (Raise e), ([EvSummarizeText text] ++ evs).
      rewrite <- !app_assoc. split; [reflexivity|].
      rewrite forallb_app, existsb_app, Hred, Hfail. auto.
  - rewrite summarize_text_no_client by assumption.
    exists (Ok Msg.NO_API_KEY), [EvSummarizeText text]. auto.
Qed.

End ReducerRuns.

(** ** The Reducer: properties *)

(** C4. For a text of 25,000 characters, [chunk_text] with
    [max_chars = 10000] returns three fragments, of 10,000, 10,000 and
    5,000 characters in that order; and [summarize_text], with a client
    configured and a completion service that answers, makes four
    completion calls: one for each fragment, in order, then the final
    reduction.  With any completion service the run ends, and its
    completion calls are the first [n] of these four, for some [n]. *)
Theorem scenario_25000 (text : str) :
  len text = 25000 ->
  exists f1 f2 f3,
    chunk_text text 10000 = Some [f1; f2; f3]
    /\ len f1 = 10000 /\ len f2 = 10000 /\ len f3 = 5000
    /\ (forall (w : World) (env : Env) (c : OpenAI) (tr : trace),
          client env = Some c -> answers w ->
          exists summary new final_input,
            summarize_text w env text tr = Done (Ok summary) (tr ++ new)
            /\ completion_requests new
               = [chunk_request f1; chunk_request f2; chunk_request f3;
                  final_request final_input]
            /\ length (completion_requests new) = 4%nat)
    /\ (forall (w : World) (env : Env) (c : OpenAI) (tr : trace),
          client env = Some c ->
          exists r new n final_input,
            summarize_text w env text tr = Done r (tr ++ new)
            /\ completion_requests new
               = firstn n [chunk_request f1; chunk_request f2;
                           chunk_request f3; final_request final_input]).
Proof.
  intro Hlen.
  destruct (@chunk_text_spec text 10000)
    as (cs & E & _ & Hc & _ & Hfull & Hn); [lia|].
  rewrite Hlen in Hn.
  change ((25000 + 10000 - 1) / 10000) with 3 in Hn. unfold len in Hn.
  destruct cs as [|f1 [|f2 [|f3 [|f4 cs]]]]; simpl in Hn; try lia.
  exists f1, f2, f3. split; [exact E|].
  simpl in Hfull. pose proof (Forall_inv Hfull) as H1.
  pose proof (Forall_inv (Forall_inv_tail Hfull)) as H2. simpl in H1, H2.
  assert (Hsum : len f1 + (len f2 + (len f3 + 0)) = 25000).
  { rewrite <- Hlen, <- Hc. simpl. rewrite !len_app. reflexivity. }
  split; [lia|]. split; [lia|]. split; [lia|]. split.
  - intros w env c tr Hcl Hw.
    rewrite (@summarize_text_client w env c text [f1; f2; f3] tr Hcl E).
    destruct (@summarize_chunks_answers w c [f1; f2; f3] Hw []
                (tr ++ [EvSummarizeText text]))
      as (ps & evs & Hrun & _ & Hreq).
    rewrite Hrun, final_reduction_run.
    destruct (Hw ((tr ++ [EvSummarizeText text]) ++ evs) c
                (final_request (join Msg.SEPARATOR ([] ++ ps))))
      as (s & more & ->).
    exists (strip s),
      ([EvSummarizeText text] ++ evs
         ++ [EvCreate c (final_request (join Msg.SEPARATOR ([] ++ ps)))
               (Ok {| choices := Some s :: more |})]),
      (join Msg.SEPARATOR ([] ++ ps)).
    rewrite <- !app_assoc. split; [reflexivity|].
    rewrite !completion_requests_app, Hreq. split; reflexivity.
  - intros w env c tr Hcl.
    rewrite (@summarize_text_client w env c text [f1; f2; f3] tr Hcl E).
    destruct (summarize_chunks_run w c [f1; f2; f3] []
                (tr ++ [EvSummarizeText text]))
      as (r & evs & Hrun & Hreq & _ & _ & Hok).
    rewrite Hrun.
    assert (Hreq' : map request_of evs
                    = map Some (map chunk_request
                                  (firstn (length evs) [f1; f2; f3])))
      by (rewrite map_map; exact Hreq).
    assert (Hle : (length evs <= 3)%nat).
    { apply (f_equal (@length _)) in Hreq.
      rewrite !length_map, length_firstn in Hreq. simpl in Hreq. lia. }
    clear Hreq. apply completion_requests_of_map in Hreq'.
    rename Hreq' into Hreq.
    destruct r as [ps|e].
    + destruct (Hok ps eq_refl) as (new & _ & _ & Hl & _).
      rewrite Hl in Hreq. simpl in Hreq.
      rewrite final_reduction_run.
      eexists _, ([EvSummarizeText text] ++ evs ++ [_]), 4%nat,
        (join Msg.SEPARATOR ps).
      rewrite <- !app_assoc. split; [reflexivity|].
      rewrite !completion_requests_app, Hreq. reflexivity.
    + exists (Raise e), ([EvSummarizeText text] ++ evs), (length evs), [].
      rewrite <- !app_assoc. split; [reflexivity|].
      rewrite !completion_requests_app, Hreq. simpl completion_requests.
      destruct (length evs) as [|[|[|[|k]]]]; try lia; reflexivity.
Qed.

Lemma length_long_text : len long_text = 25000.
Proof. unfold len, long_text. rewrite repeat_length. lia. Defined.

Lemma sample_world_answers (extracted : str) : answers (sample_world extracted).
Proof. intros tr c req. exists [32; 111; 107; 32]%N, []. reflexivity. Defined.

Lemma scenario_25000_witness :
  exists f1 f2 f3,
    chunk_text long_text 10000 = Some [f1; f2; f3]
    /\ len f1 = 10000 /\ len f2 = 10000 /\ len f3 = 5000
    /\ exists summary new final_input,
         summarize_text (sample_world long_text) sample_env long_text []
         = Done (Ok summary) ([] ++ new)
         /\ completion_requests new
            = [chunk_request f1; chunk_request f2; chunk_request f3;
               final_request final_input]
         /\ length (completion_requests new) = 4%nat.
Proof.
  destruct (@scenario_25000 long_text length_long_text)
    as (f1 & f2 & f3 & E & L1 & L2 & L3 & Hrun & _).
  exists f1, f2, f3. repeat split; try assumption.
  apply (Hrun (sample_world long_text) sample_env sample_client []);
    [reflexivity | apply sample_world_answers].
Defined.

Section ReducerLoop.
Variable w : World.



End ReducerLoop.



(** C6. When the completion service is not configured (no
    [OPENAI_API_KEY], or an empty one), [summarize_text] returns the
    configuration message on any text and makes no completion call.
    A completion call that fails makes [summarize_text] raise instead:
    the two outcomes are of different kinds. *)
Theorem summarize_text_unconfigured (w : World) (env : Env) (text : str)
    (tr : trace) :
  OPENAI_API_KEY env = None \/ OPENAI_API_KEY env = Some [] ->
  summarize_text w env text tr
  = Done (Ok Msg.NO_API_KEY) (tr ++ [EvSummarizeText text])
  /\ completion_requests [EvSummarizeText text] = []
  /\ forall (w' : World) (env' : Env) (text' : str) (tr' : trace)
            (r : result str) (new : trace),
       summarize_text w' env' text' tr' = Done r (tr' ++ new) ->
       existsb failed_call new = true ->
       exists e, r = Raise e /\ r <> Ok Msg.NO_API_KEY.
Proof.
  intro Hkey.
  assert (Hcl : client env = None)
    by (unfold client; destruct Hkey as [-> | ->]; reflexivity).
  split; [apply summarize_text_no_client; exact Hcl|].
  split; [reflexivity|].
  intros w' env' text' tr' r new Hrun Hfail.
  destruct (summarize_text_run w' env' text' tr')
    as (r0 & evs & Hrun0 & _ & Hfail0).
  rewrite Hrun in Hrun0. injection Hrun0 as -> Hevs.
  apply app_inv_head in Hevs. subst evs.
  rewrite Hfail in Hfail0. destruct r0 as [s|e]; [discriminate|].
  exists e. split; [reflexivity|discriminate].
Qed.

Lemma summarize_text_unconfigured_witness :
  summarize_text (sample_world []) no_key_env [104; 105]%N []
  = Done (Ok Msg.NO_API_KEY) ([] ++ [EvSummarizeText [104; 105]%N])
  /\ exists e,
       @Raise str (Exception [53; 48; 51]%N) = Raise e
       /\ Raise (Exception [53; 48; 51]%N) <> Ok Msg.NO_API_KEY.
Proof.
  destruct (@summarize_text_unconfigured (sample_world []) no_key_env
              [104; 105]%N [] (or_introl eq_refl)) as (Hrun & _ & Hkind).
  split; [exact Hrun|].
  apply (Hkind (failing_world []) sample_env [104; 105]%N []
           (Raise (Exception [53; 48; 51]%N))
           [EvSummarizeText [104; 105]%N;
            EvCreate sample_client (chunk_request [104; 105]%N)
              (Raise (Exception [53; 48; 51]%N))]);
    reflexivity.
Defined.

(** ** White space *)

Lemma forallb_isspace_lstrip (s : str) :
  forallb isspace (lstrip s) = forallb isspace s.
Proof.
  induction s as [|c s IH]; simpl; [reflexivity|].
  destruct (isspace c) eqn:E; simpl; [exact IH|].
  rewrite E. reflexivity.
Qed.

Lemma lstrip_nil_iff (s : str) :
  lstrip s = [] <-> forallb isspace s = true.
Proof.
  induction s as [|c s IH]; simpl; [tauto|].
  destruct (isspace c); simpl; [exact IH|].
  split; discriminate.
Qed.

Lemma forallb_rev {A : Type} (p : A -> bool) (l : list A) :
  forallb p (rev l) = forallb p l.
Proof.
  induction l as [|a l IH]; simpl; [reflexivity|].
  rewrite forallb_app, IH. simpl. rewrite andb_true_r. apply andb_comm.
Qed.

(** [text.strip()] is empty exactly when [text] is blank. *)
Lemma strip_nil_iff (text : str) : strip text = [] <-> blank text = true.
Proof.
  unfold strip, rstrip, blank.
  rewrite <- forallb_isspace_lstrip, <- (forallb_rev isspace (lstrip text)).
  rewrite <- lstrip_nil_iff.
  split; intro H.
  - apply (f_equal (@rev char)) in H. rewrite rev_involutive in H. exact H.
  - rewrite H. reflexivity.
Qed.

Lemma truthy_strip (text : str) :
  truthy (strip text) = negb (blank text).
Proof.
  destruct (blank text) eqn:E.
  - apply strip_nil_iff in E. rewrite E. reflexivity.
  - destruct (strip text) eqn:Es; [|reflexivity].
    apply strip_nil_iff in Es. congruence.
Qed.

Lemma str_eqb_eq (a b : str) : str_eqb a b = true <-> a = b.
Proof.
  unfold str_eqb. destruct (list_eq_dec N.eq_dec a b); split;
    intro H; try reflexivity; try assumption; try discriminate; contradiction.
Qed.

(** ** The Retriever and the Request Handler: runs *)




Section HandlerRuns.
Variable w : World.



End HandlerRuns.

Section HandlerFacts.
Variable w : World.


End HandlerFacts.

(** ** The Request Handler: properties *)


Lemma mime_differs_true (d : Document) :
  mime_type d <> Some Msg.MIME_PDF -> mime_differs d = true.
Proof.
  unfold mime_differs. destruct (mime_type d) as [m|]; [|reflexivity].
  intro H. destruct (str_eqb m Msg.MIME_PDF) eqn:E; [|reflexivity].
  apply str_eqb_eq in E. congruence.
Qed.



(** C8, where the code departs from it.  An update without
    [update.message] (an edited message, a post of a channel) makes
    [handle_document] raise [AttributeError] at [message.document],
    before the [try]: no reply is sent, whatever document the update
    carries, and no other call is made. *)
Theorem handle_document_no_message (w : World) (env : Env)
    (update : Update) (tr : trace) :
  message update = None ->
  handle_document w env update tr
  = Done (Raise (Exception Msg.NONE_DOCUMENT)) tr.
Proof.
  intro H. unfold handle_document. cbv zeta. rewrite H. reflexivity.
Qed.

Lemma handle_document_no_message_witness :
  effective_message edited_png_update
  = Some {| document := Some png_document |}
  /\ mime_type png_document <> Some Msg.MIME_PDF
  /\ handle_document (sample_world []) sample_env edited_png_update []
     = Done (Raise (Exception Msg.NONE_DOCUMENT)) [].
Proof.
  split; [reflexivity|]. split; [discriminate|].
  apply handle_document_no_message. reflexivity.
Defined.

(** X13. When the update has a message that carries no document, or a
    document whose declared media type is not [application/pdf],
    [handle_document] makes one call, the reply "please send a PDF":
    no call to the Retriever, to the Extractor or to the Reducer. *)
Theorem handle_document_not_pdf (w : World) (env : Env) (update : Update)
    (tr : trace) (m : Message) :
  message update = Some m ->
  document m = None
  \/ (exists d, document m = Some d /\ mime_type d <> Some Msg.MIME_PDF) ->
  exists r new,
    handle_document w env update tr = Done r (tr ++ new)
    /\ new = [EvReplyText Msg.ONLY_PDF r]
    /\ existsb is_retriever_event new = false
    /\ existsb is_extractor_event new = false
    /\ existsb is_reducer_event new = false.
Proof.
  intros Hmsg H.
  exists (reply_text w tr Msg.ONLY_PDF),
    [EvReplyText Msg.ONLY_PDF (reply_text w tr Msg.ONLY_PDF)].
  split; [|repeat split].
  unfold handle_document. cbv zeta. rewrite Hmsg.
  destruct H as [-> | (d & -> & Hm)]; [reflexivity|].
  rewrite (mime_differs_true d Hm). reflexivity.
Qed.

Lemma handle_document_not_pdf_witness :
  exists r new,
    handle_document (sample_world [104; 105]%N) sample_env png_update []
    = Done r ([] ++ new)
    /\ new = [EvReplyText Msg.ONLY_PDF r]
    /\ existsb is_retriever_event new = false
    /\ existsb is_extractor_event new = false
    /\ existsb is_reducer_event new = false.
Proof.
  apply (@handle_document_not_pdf (sample_world [104; 105]%N) sample_env
           png_update [] {| document := Some png_document |});
    [reflexivity|].
  right. exists png_document. split; [reflexivity | discriminate].
Defined.

(** ** Runs on the sample worlds *)

Example chunk_text_hello :
  chunk_text [104; 101; 108; 108; 111]%N 2
  = Some [[104; 101]%N; [108; 108]%N; [111]%N].
Proof. reflexivity. Qed.

Example chunk_text_zero_diverges : chunk_text [104; 105]%N 0 = None.
Proof. reflexivity. Qed.

Example strip_spaces : strip [32; 10; 104; 32; 105; 9]%N = [104; 32; 105]%N.
Proof. reflexivity. Qed.

(** A PDF with the text ["hi"]: retrieval, extraction, one call for the
    only fragment, the final call, the reply, the release of the
    temporary directory. *)
Example handle_document_summary :
  handle_document (sample_world [104; 105]%N) sample_env pdf_update []
  = Done (Ok tt)
      [EvGetFile [105; 100]%N (Ok [117; 114; 108]%N);
       EvReplyText Msg.RECEIVED (Ok tt);
       EvMkdtemp (Ok [47; 116; 109; 112]%N);
       EvRequestsGet [117; 114; 108]%N
         (Ok {| status_code := 200; http_error := [];
                body_chunks := [[37; 80; 68; 70]%N]; body_error := None |});
       EvOpen ([47; 116; 109; 112; 47]%N ++ Msg.DEFAULT_FILE_NAME) (Ok tt);
       EvWrite ([47; 116; 109; 112; 47]%N ++ Msg.DEFAULT_FILE_NAME)
         [37; 80; 68; 70]%N (Ok tt);
       EvExtractText ([47; 116; 109; 112; 47]%N ++ Msg.DEFAULT_FILE_NAME)
         (Ok [104; 105]%N);
       EvSummarizeText [104; 105]%N;
       EvCreate sample_client (chunk_request [104; 105]%N)
         (Ok {| choices := [Some [32; 111; 107; 32]%N] |});
       EvCreate sample_client (final_request [111; 107]%N)
         (Ok {| choices := [Some [32; 111; 107; 32]%N] |});
       EvReplyText [111; 107]%N (Ok tt);
       EvCleanup [47; 116; 109; 112]%N (Ok tt)].
Proof. vm_compute. reflexivity. Qed.

(** The same with a completion service that raises: the handler
    replies with the error text. *)
Example handle_document_completion_error :
  handle_document (failing_world [104; 105]%N) sample_env pdf_update []
  = Done (Ok tt)
      [EvGetFile [105; 100]%N (Ok [117; 114; 108]%N);
       EvReplyText Msg.RECEIVED (Ok tt);
       EvMkdtemp (Ok [47; 116; 109; 112]%N);
       EvRequestsGet [117; 114; 108]%N
         (Ok {| status_code := 200; http_error := [];
                body_chunks := [[37; 80; 68; 70]%N]; body_error := None |});
       EvOpen ([47; 116; 109; 112; 47]%N ++ Msg.DEFAULT_FILE_NAME) (Ok tt);
       EvWrite ([47; 116; 109; 112; 47]%N ++ Msg.DEFAULT_FILE_NAME)
         [37; 80; 68; 70]%N (Ok tt);
       EvExtractText ([47; 116; 109; 112; 47]%N ++ Msg.DEFAULT_FILE_NAME)
         (Ok [104; 105]%N);
       EvSummarizeText [104; 105]%N;
       EvCreate sample_client (chunk_request [104; 105]%N)
         (Raise (Exception [53; 48; 51]%N));
       EvCleanup [47; 116; 109; 112]%N (Ok tt);
       EvReplyText (Msg.ERROR_PREFIX ++ [53; 48; 51]%N) (Ok tt)].
Proof. vm_compute. reflexivity. Qed.

(** Without a key the configuration message is sent as the reply. *)
Example handle_document_no_key :
  handle_document (sample_world [104; 105]%N) no_key_env pdf_update []
  = Done (Ok tt)
      [EvGetFile [105; 100]%N (Ok [117; 114; 108]%N);
       EvReplyText Msg.RECEIVED (Ok tt);
       EvMkdtemp (Ok [47; 116; 109; 112]%N);
       EvRequestsGet [117; 114; 108]%N
         (Ok {| status_code := 200; http_error := [];
                body_chunks := [[37; 80; 68; 70]%N]; body_error := None |});
       EvOpen ([47; 116; 109; 112; 47]%N ++ Msg.DEFAULT_FILE_NAME) (Ok tt);
       EvWrite ([47; 116; 109; 112; 47]%N ++ Msg.DEFAULT_FILE_NAME)
         [37; 80; 68; 70]%N (Ok tt);
       EvExtractText ([47; 116; 109; 112; 47]%N ++ Msg.DEFAULT_FILE_NAME)
         (Ok [104; 105]%N);
       EvSummarizeText [104; 105]%N;
       EvReplyText Msg.NO_API_KEY (Ok tt);
       EvCleanup [47; 116; 109; 112]%N (Ok tt)].
Proof. vm_compute. reflexivity. Qed.

(** ** The Chunker: where each fragment lies *)

(** A stop bound beyond the end of the sequence is clamped to it. *)
Lemma py_slice_clamp_stop {A : Type} (s : list A) (a b : Z) :
  0 <= b -> py_slice s a b = py_slice s a (Z.min b (len s)).
Proof.
  intro Hb. unfold py_slice, slice_bound.
  pose proof (len_nonneg s) as Hn.
  destruct (Z.ltb_spec b 0) as [H|_]; [lia|].
  destruct (Z.ltb_spec (Z.min b (len s)) 0) as [H|_]; [lia|].
  rewrite (Z.min_l (Z.min b (len s)) (len s)) by lia. reflexivity.
Qed.

Lemma chunk_loop_nth (fuel : nat) :
  forall (text : str) (mc start : Z) (acc : list str),
    1 <= mc -> 0 <= start <= len text ->
    len text - start <= Z.of_nat fuel ->
    exists cs,
      chunk_loop fuel text mc start acc = Some (acc ++ cs)
      /\ forall i, (i < length cs)%nat ->
           nth i cs []
           = py_slice text (start + Z.of_nat i * mc)
                      (start + (Z.of_nat i + 1) * mc).
Proof.
  induction fuel as [|fuel IH]; intros text mc start acc Hmc Hs Hf.
  - exists []. rewrite chunk_loop_exit, app_nil_r by lia.
    split; [reflexivity|]. simpl. intros i Hi. lia.
  - destruct (Z.lt_ge_cases start (len text)) as [Hlt|Hge].
    + rewrite chunk_loop_iter by assumption.
      destruct (chunk_end_advances text (mc := mc) (start := start))
        as [[He1 He2] He3]; [lia|lia|].
      assert (Hslice : py_slice text start (chunk_end text mc start)
                       = py_slice text start (start + mc)).
      { unfold chunk_end. symmetry. apply py_slice_clamp_stop. lia. }
      set (e := chunk_end text mc start) in *.
      destruct (IH text mc e (acc ++ [py_slice text start e]))
        as (cs & Hrun & Hnth); [lia|lia|lia|].
      exists (py_slice text start e :: cs).
      rewrite Hrun, <- app_assoc. split; [reflexivity|].
      intros [|i] Hi.
      * cbn [nth]. change (Z.of_nat 0) with 0. rewrite Hslice. f_equal; lia.
      * simpl in Hi. cbn [nth]. rewrite Hnth by lia.
        assert (He : e = start + mc).
        { destruct (Z.eq_dec e (len text)) as [E|E]; [|lia].
          rewrite chunk_loop_exit in Hrun by lia.
          injection Hrun as Hrun.
          rewrite <- (app_nil_r (acc ++ [py_slice text start e])) in Hrun
            at 1.
          apply app_inv_head in Hrun. subst cs. simpl in Hi. lia. }
        rewrite He, Nat2Z.inj_succ. f_equal; lia.
    + exists []. rewrite chunk_loop_exit, app_nil_r by lia.
      split; [reflexivity|]. simpl. intros i Hi. lia.
Qed.

(** X1. For every positive [max_chars], the fragment of index [i] that
    [chunk_text] returns is the slice
    [text[i * max_chars : (i + 1) * max_chars]]. *)
Theorem chunk_text_nth (text : str) (max_chars : Z) :
  0 < max_chars ->
  exists chunks,
    chunk_text text max_chars = Some chunks
    /\ forall i, (i < length chunks)%nat ->
         nth i chunks []
         = py_slice text (Z.of_nat i * max_chars)
                    ((Z.of_nat i + 1) * max_chars).
Proof.
  intro Hmc.
  destruct (chunk_loop_nth (length text) text (mc := max_chars) (start := 0)
              [])
    as (cs & Hrun & Hnth);
    [lia | pose proof (len_nonneg text); lia | unfold len; lia |].
  exists cs. split; [exact Hrun|].
  intros i Hi. rewrite (Hnth i Hi). reflexivity.
Qed.

Lemma chunk_text_nth_witness :
  exists chunks,
    chunk_text [104; 101; 108; 108; 111]%N 2 = Some chunks
    /\ forall i, (i < length chunks)%nat ->
         nth i chunks []
         = py_slice [104; 101; 108; 108; 111]%N (Z.of_nat i * 2)
                    ((Z.of_nat i + 1) * 2).
Proof. apply chunk_text_nth. lia. Defined.

(** ** The Retriever: properties *)

Lemma concat_nonempty_chunks (chunks : list (list N)) :
  concat (nonempty_chunks chunks) = concat chunks.
Proof.
  induction chunks as [|chunk rest IH]; [reflexivity|].
  unfold nonempty_chunks in *. destruct chunk as [|b chunk]; simpl.
  - exact IH.
  - rewrite IH. reflexivity.
Qed.

Section RetrieverFacts.
Variable w : World.

Lemma write_chunks_all_ok (dest_path : str) (chunks : list (list N))
    (err : option exn) :
  (forall t chunk, write w t dest_path chunk = Ok tt) ->
  forall tr : trace,
    write_chunks w dest_path chunks err tr
    = Done (match err with Some e => Raise e | None => Ok tt end)
           (tr ++ write_events dest_path chunks).
Proof.
  intro Hw. induction chunks as [|chunk rest IH]; intro tr.
  - unfold write_events. simpl. rewrite app_nil_r.
    destruct err; reflexivity.
  - cbn [write_chunks]. destruct chunk as [|b chunk].
    + rewrite IH. reflexivity.
    + unfold bind, call. cbv zeta. rewrite Hw, IH.
      unfold write_events. simpl. rewrite <- app_assoc. reflexivity.
Qed.

(** The events of a run of [download_file] are the request of
    [file_url] and operations on [dest_path]. *)
Lemma write_chunks_events (dest_path : str) (chunks : list (list N))
    (err : option exn) :
  forall tr : trace,
  exists r evs,
    write_chunks w dest_path chunks err tr = Done r (tr ++ evs)
    /\ forall url, Forall (download_event url dest_path) evs.
Proof.
  induction chunks as [|chunk rest IH]; intro tr.
  - simpl. destruct err as [e|].
    + exists (Raise e), []. unfold raise. rewrite app_nil_r. auto.
    + exists (Ok tt), []. unfold ret. rewrite app_nil_r. auto.
  - cbn [write_chunks]. destruct chunk as [|b chunk]; [apply IH|].
    unfold bind, call. cbv zeta.
    destruct (write w tr dest_path (b :: chunk)) as [[]|e].
    + destruct (IH (tr ++ [EvWrite dest_path (b :: chunk) (Ok tt)]))
        as (r & evs & Hrun & Hev).
      exists r, (EvWrite dest_path (b :: chunk) (Ok tt) :: evs).
      rewrite Hrun, <- app_assoc. split; [reflexivity|].
      intro url. constructor; [reflexivity|apply Hev].
    + exists (Raise e), [EvWrite dest_path (b :: chunk) (Raise e)].
      split; [reflexivity|]. intro url. repeat constructor.
Qed.

Lemma download_file_events (file_url dest_path : str) (tr : trace) :
  exists r evs,
    download_file w file_url dest_path tr = Done r (tr ++ evs)
    /\ Forall (download_event file_url dest_path) evs.
Proof.
  unfold download_file, bind, call. cbv zeta.
  destruct (requests_get w tr file_url) as [resp|e].
  - unfold raise_for_status.
    destruct ((400 <=? status_code resp) && (status_code resp <? 600)).
    + unfold raise. eexists _, [_]. split; [reflexivity|].
      repeat constructor.
    + unfold ret.
      destruct (open_wb w (tr ++ [EvRequestsGet file_url (Ok resp)]) dest_path)
        as [[]|e].
      * destruct (write_chunks_events dest_path (body_chunks resp)
                    (body_error resp)
                    ((tr ++ [EvRequestsGet file_url (Ok resp)])
                       ++ [EvOpen dest_path (Ok tt)]))
          as (r & evs & Hrun & Hev).
        rewrite Hrun.
        exists r, ([EvRequestsGet file_url (Ok resp)]
                     ++ [EvOpen dest_path (Ok tt)] ++ evs).
        rewrite <- !app_assoc. split; [reflexivity|].
        repeat constructor. apply Hev.
      * eexists _, [_; _]. rewrite <- app_assoc.
        split; [reflexivity|]. repeat constructor.
  - eexists _, [_]. split; [reflexivity|]. repeat constructor.
Qed.

End RetrieverFacts.

(** X2. When the request succeeds with a status outside 400..599, the
    file opens and every write succeeds, [download_file] writes the
    chunks of the body that are not empty, in order, and nothing else:
    the bytes written are the bytes of the body.  It then returns, or
    raises the error the body ended with. *)
Theorem download_file_writes_body (w : World) (file_url dest_path : str)
    (tr : trace) (resp : http_response) :
  requests_get w tr file_url = Ok resp ->
  status_code resp < 400 \/ 600 <= status_code resp ->
  open_wb w (tr ++ [EvRequestsGet file_url (Ok resp)]) dest_path = Ok tt ->
  (forall t chunk, write w t dest_path chunk = Ok tt) ->
  download_file w file_url dest_path tr
  = Done (match body_error resp with Some e => Raise e | None => Ok tt end)
         (tr ++ [EvRequestsGet file_url (Ok resp); EvOpen dest_path (Ok tt)]
             ++ write_events dest_path (body_chunks resp))
  /\ concat (nonempty_chunks (body_chunks resp)) = concat (body_chunks resp).
Proof.
  intros Hget Hst Hopen Hw. split; [|apply concat_nonempty_chunks].
  unfold download_file, bind, call. cbv zeta. rewrite Hget.
  unfold raise_for_status.
  replace ((400 <=? status_code resp) && (status_code resp <? 600))
    with false.
  2:{ symmetry. apply andb_false_iff.
      destruct Hst; [left; apply Z.leb_gt | right; apply Z.ltb_ge]; lia. }
  unfold ret. rewrite Hopen, (@write_chunks_all_ok w dest_path _ _ Hw).
  rewrite <- !app_assoc. reflexivity.
Qed.

Lemma download_file_writes_body_witness :
  download_file (sample_world []) [117]%N [112]%N []
  = Done (Ok tt)
         ([] ++ [EvRequestsGet [117]%N
                   (Ok {| status_code := 200; http_error := [];
                          body_chunks := [[37; 80; 68; 70]%N];
                          body_error := None |});
                 EvOpen [112]%N (Ok tt)]
             ++ write_events [112]%N [[37; 80; 68; 70]%N])
  /\ concat (nonempty_chunks [[37; 80; 68; 70]%N])
     = concat [[37; 80; 68; 70]%N].
Proof.
  apply (@download_file_writes_body (sample_world []) [117]%N [112]%N []
           {| status_code := 200; http_error := [];
              body_chunks := [[37; 80; 68; 70]%N]; body_error := None |});
    [reflexivity | left; reflexivity | reflexivity | reflexivity].
Defined.

(** X3. [download_file] opens or writes the destination only after the
    request succeeded with a status outside 400..599.  A status in
    400..599 makes it raise the HTTP error, and a request that raises
    makes it raise the same exception: in both cases the request is its
    only call. *)
Theorem download_file_guarded (w : World) (file_url dest_path : str)
    (tr : trace) :
  exists r evs,
    download_file w file_url dest_path tr = Done r (tr ++ evs)
    /\ (existsb is_file_event evs = true ->
        exists resp,
          requests_get w tr file_url = Ok resp
          /\ (status_code resp < 400 \/ 600 <= status_code resp))
    /\ (forall resp,
          requests_get w tr file_url = Ok resp ->
          400 <= status_code resp < 600 ->
          r = Raise (Exception (http_error resp))
          /\ evs = [EvRequestsGet file_url (Ok resp)])
    /\ (forall e,
          requests_get w tr file_url = Raise e ->
          r = Raise e /\ evs = [EvRequestsGet file_url (Raise e)]).
Proof.
  assert (Hrest : forall resp t,
            exists r evs,
              (call (fun tr0 => open_wb w tr0 dest_path) (EvOpen dest_path) ;;;
               write_chunks w dest_path (body_chunks resp) (body_error resp))
                t
              = Done r (t ++ evs)).
  { intros resp t. unfold bind, call. cbv zeta.
    destruct (open_wb w t dest_path) as [[]|e].
    - destruct (write_chunks_events w dest_path (body_chunks resp)
                  (body_error resp) (t ++ [EvOpen dest_path (Ok tt)]))
        as (r & evs & Hrun & _).
      rewrite Hrun. exists r, (EvOpen dest_path (Ok tt) :: evs).
      rewrite <- app_assoc. reflexivity.
    - eexists _, [_]. reflexivity. }
  unfold download_file. unfold bind at 1. unfold call at 1. cbv zeta.
  destruct (requests_get w tr file_url) as [resp|e].
  - unfold bind at 1, raise_for_status.
    destruct (Z.leb_spec 400 (status_code resp)) as [H4|H4];
      [destruct (Z.ltb_spec (status_code resp) 600) as [H6|H6]|];
      cbn [andb].
    + unfold raise. eexists _, [_]. split; [reflexivity|].
      split; [discriminate|]. split.
      * intros resp' [= <-] _. auto.
      * intros e [=].
    + unfold ret.
      destruct (Hrest resp (tr ++ [EvRequestsGet file_url (Ok resp)]))
        as (r & evs & ->).
      exists r, (EvRequestsGet file_url (Ok resp) :: evs).
      rewrite <- app_assoc. split; [reflexivity|].
      split; [intros _; exists resp; split; [reflexivity|lia]|].
      split; [intros resp' [= <-] Hs; lia | intros e' [=]].
    + unfold ret.
      destruct (Hrest resp (tr ++ [EvRequestsGet file_url (Ok resp)]))
        as (r & evs & ->).
      exists r, (EvRequestsGet file_url (Ok resp) :: evs).
      rewrite <- app_assoc. split; [reflexivity|].
      split; [intros _; exists resp; split; [reflexivity|lia]|].
      split; [intros resp' [= <-] Hs; lia | intros e' [=]].
  - eexists _, [_]. split; [reflexivity|]. split; [discriminate|].
    split; [intros resp [=] | intros e' [= <-]; auto].
Qed.

Lemma download_file_guarded_witness :
  exists r evs,
    download_file not_found_world [117]%N [112]%N [] = Done r ([] ++ evs)
    /\ r = Raise (Exception [52; 48; 52]%N)
    /\ evs = [EvRequestsGet [117]%N
                (Ok {| status_code := 404; http_error := [52; 48; 52]%N;
                       body_chunks := [[110; 111]%N];
                       body_error := None |})].
Proof.
  destruct (download_file_guarded not_found_world [117]%N [112]%N [])
    as (r & evs & Hrun & _ & H404 & _).
  exists r, evs. split; [exact Hrun|].
  apply (H404 {| status_code := 404; http_error := [52; 48; 52]%N;
                 body_chunks := [[110; 111]%N]; body_error := None |});
    [reflexivity | simpl; lia].
Defined.

(** ** White space: a stripped string stays as it is *)

Lemma lstrip_starts_clean (s : str) : starts_clean (lstrip s).
Proof.
  induction s as [|c s IH]; simpl; [exact I|].
  destruct (isspace c) eqn:E; [exact IH|exact E].
Qed.

Lemma lstrip_clean (s : str) : starts_clean s -> lstrip s = s.
Proof. destruct s as [|c s]; simpl; [reflexivity|]. intros ->. reflexivity. Qed.

Lemma lstrip_suffix (s : str) : exists p, s = p ++ lstrip s.
Proof.
  induction s as [|c s [p IH]]; [exists []; reflexivity|].
  simpl. destruct (isspace c).
  - exists (c :: p). simpl. f_equal. exact IH.
  - exists []. reflexivity.
Qed.

Lemma lstrip_keeps_clean_end (s : str) :
  starts_clean (rev s) -> starts_clean (rev (lstrip s)).
Proof.
  intro H. destruct (lstrip_suffix s) as [p Hp].
  rewrite Hp, rev_app_distr in H.
  destruct (rev (lstrip s)) as [|c t]; [exact I|exact H].
Qed.

Lemma strip_idempotent (s : str) : strip (strip s) = strip s.
Proof.
  unfold strip, rstrip.
  set (z := lstrip (rev (lstrip s))).
  assert (Hz : starts_clean (rev z)).
  { apply lstrip_keeps_clean_end. rewrite rev_involutive.
    apply lstrip_starts_clean. }
  rewrite (lstrip_clean _ Hz), rev_involutive.
  rewrite (lstrip_clean z); [reflexivity|apply lstrip_starts_clean].
Qed.

(** ** The Reducer: further properties *)

Lemma existsb_removelast_cons {A : Type} (p : A -> bool) (a : A)
    (l : list A) :
  p a = false -> existsb p (removelast l) = false ->
  existsb p (removelast (a :: l)) = false.
Proof.
  intros Ha Hl. destruct l as [|b l]; [reflexivity|].
  change (removelast (a :: b :: l)) with (a :: removelast (b :: l)).
  simpl existsb at 1. rewrite Ha. exact Hl.
Qed.

Lemma existsb_removelast {A : Type} (p : A -> bool) (l : list A) :
  existsb p l = false -> existsb p (removelast l) = false.
Proof.
  induction l as [|a l IH]; [reflexivity|].
  simpl existsb at 1. intro H. apply orb_false_iff in H. destruct H as [Ha Hl].
  apply existsb_removelast_cons; auto.
Qed.

Section ReducerCalls.
Variable w : World.

(** The calls of the loop go through the client, and only the last can
    be a failed one. *)
Lemma summarize_chunks_calls (c : OpenAI) (chunks : list str) :
  forall (acc : list str) (tr : trace),
  exists r evs,
    summarize_chunks w c chunks acc tr = Done r (tr ++ evs)
    /\ Forall (created_by c) evs
    /\ forallb is_create_event evs = true
    /\ existsb failed_call (removelast evs) = false
    /\ existsb failed_call evs
       = match r with Ok _ => false | Raise _ => true end.
Proof.
  induction chunks as [|ch rest IH]; intros acc tr.
  - exists (Ok acc), []. simpl. unfold ret. rewrite app_nil_r. auto.
  - cbn [summarize_chunks]. unfold bind at 1.
    rewrite completions_create_run.
    set (ev := EvCreate c (chunk_request ch)
                 (create w tr c (chunk_request ch))).
    assert (Hev : failed_call ev
                  = match read_response (create w tr c (chunk_request ch))
                    with Ok _ => false | Raise _ => true end)
      by reflexivity.
    assert (Hby : created_by c ev) by reflexivity.
    assert (Hcr : is_create_event ev = true) by reflexivity.
    clearbody ev.
    destruct (create w tr c (chunk_request ch)) as [resp|e] eqn:Ec.
    + unfold bind at 1, of_result. simpl in Hev.
      destruct (stripped_content resp) as [s|e] eqn:Es.
      * destruct (IH (acc ++ [s]) (tr ++ [ev]))
          as (r & evs & Hrun & Hall & Hcre & Hlast & Hfail).
        exists r, (ev :: evs). rewrite Hrun, <- app_assoc.
        split; [reflexivity|]. split; [constructor; assumption|].
        split; [simpl; rewrite Hcr; exact Hcre|].
        split; [apply existsb_removelast_cons; assumption|].
        simpl. rewrite Hev. exact Hfail.
      * exists (Raise e), [ev]. simpl. rewrite Hev, Hcr. auto.
    + exists (Raise e), [ev]. simpl in *. rewrite Hev, Hcr. auto.
Qed.

(** A run of [summarize_text]: its entry, then completion calls. *)
Lemma summarize_text_calls (env : Env) (text : str) (tr : trace) :
  exists r calls,
    summarize_text w env text tr
    = Done r (tr ++ EvSummarizeText text :: calls)
    /\ forallb is_create_event calls = true
    /\ (forall c, client env = Some c -> Forall (created_by c) calls)
    /\ (client env = None -> calls = [])
    /\ existsb failed_call (removelast calls) = false
    /\ existsb failed_call calls
       = match r with Ok _ => false | Raise _ => true end
    /\ forall s, r = Ok s -> strip s = s.
Proof.
  destruct (client env) as [c|] eqn:Hc.
  - destruct (@chunk_text_spec text 10000) as (chunks & Hch & _); [lia|].
    rewrite (@summarize_text_client w env c text chunks tr Hc Hch).
    destruct (summarize_chunks_calls c chunks [] (tr ++ [EvSummarizeText text]))
      as (r & evs & Hrun & Hby & Hcre & Hlast & Hfail).
    rewrite Hrun. destruct r as [ps|e].
    + rewrite final_reduction_run.
      set (req := final_request (join Msg.SEPARATOR ps)).
      set (rf := create w _ c req).
      exists (read_response rf), (evs ++ [EvCreate c req rf]).
      rewrite <- !app_assoc. split; [reflexivity|].
      split; [rewrite forallb_app, Hcre; reflexivity|].
      split.
      { intros c' [= <-]. apply Forall_app. split; [exact Hby|].
        repeat constructor. }
      split; [discriminate|].
      split; [rewrite removelast_last; exact Hfail|].
      split.
      { rewrite existsb_app, Hfail. simpl.
        destruct (read_response rf); reflexivity. }
      intros s Hs. unfold read_response in Hs.
      destruct rf as [resp|e]; [|discriminate Hs].
      unfold stripped_content in Hs.
      destruct (choices resp) as [|[content|] more]; try discriminate Hs.
      injection Hs as <-. apply strip_idempotent.
    + exists (Raise e), evs. rewrite <- !app_assoc.
      split; [reflexivity|]. split; [exact Hcre|].
      split; [intros c' [= <-]; exact Hby|].
      split; [discriminate|]. split; [exact Hlast|].
      split; [exact Hfail|]. intros s [=].
  - rewrite summarize_text_no_client by assumption.
    exists (Ok Msg.NO_API_KEY), []. split; [reflexivity|].
    split; [reflexivity|]. split; [discriminate|].
    split; [reflexivity|]. split; [reflexivity|]. split; [reflexivity|].
    intros s [= <-]. reflexivity.
Qed.

End ReducerCalls.

(** X4. [summarize_text] stops at the first completion call that
    fails: in every run no call but the last one made is a failed call,
    and the run raises exactly when a call failed.  There is no retry
    and no result made from the summaries already obtained. *)
Theorem summarize_text_stops_at_failure (w : World) (env : Env)
    (text : str) (tr : trace) :
  exists r new,
    summarize_text w env text tr = Done r (tr ++ new)
    /\ existsb failed_call (removelast new) = false
    /\ existsb failed_call new
       = match r with Ok _ => false | Raise _ => true end.
Proof.
  destruct (summarize_text_calls w env text tr)
    as (r & calls & Hrun & _ & _ & _ & Hlast & Hfail & _).
  exists r, (EvSummarizeText text :: calls).
  split; [exact Hrun|]. split.
  - apply existsb_removelast_cons; [reflexivity|exact Hlast].
  - simpl. exact Hfail.
Qed.

Lemma summarize_text_stops_at_failure_witness :
  exists r new,
    summarize_text (failing_world []) sample_env long_text [] 
    = Done r ([] ++ new)
    /\ existsb failed_call (removelast new) = false
    /\ existsb failed_call new
       = match r with Ok _ => false | Raise _ => true end.
Proof.
  exact (summarize_text_stops_at_failure (failing_world []) sample_env
           long_text []).
Defined.

(** X5. A summary that [summarize_text] returns has no white space at
    its start or at its end: stripping it changes nothing.  This holds
    for the configuration message too. *)
Theorem summarize_text_stripped (w : World) (env : Env) (text : str)
    (tr tr' : trace) (summary : str) :
  summarize_text w env text tr = Done (Ok summary) tr' ->
  strip summary = summary.
Proof.
  intro Hrun.
  destruct (summarize_text_calls w env text tr)
    as (r & calls & Hrun' & _ & _ & _ & _ & _ & Hstrip).
  rewrite Hrun in Hrun'. injection Hrun' as <- _.
  apply Hstrip. reflexivity.
Qed.

Lemma summarize_text_stripped_witness :
  strip [111; 107]%N = [111; 107]%N.
Proof.
  apply (@summarize_text_stripped (sample_world []) sample_env
           [104; 105]%N []
           [EvSummarizeText [104; 105]%N;
            EvCreate sample_client (chunk_request [104; 105]%N)
              (Ok {| choices := [Some [32; 111; 107; 32]%N] |});
            EvCreate sample_client (final_request [111; 107]%N)
              (Ok {| choices := [Some [32; 111; 107; 32]%N] |})]).
  reflexivity.
Defined.



(** X7. Every completion call of [summarize_text] goes through the
    client made from [OPENAI_API_KEY]: its key is the value of the
    variable, and that value is not empty.  Without the variable, or
    with an empty one, no call is made. *)
Theorem summarize_text_uses_key (w : World) (env : Env) (text : str)
    (tr : trace) :
  exists r new,
    summarize_text w env text tr = Done r (tr ++ new)
    /\ forall c req rc,
         In (EvCreate c req rc) new ->
         OPENAI_API_KEY env = Some (api_key c) /\ api_key c <> [].
Proof.
  destruct (summarize_text_calls w env text tr)
    as (r & calls & Hrun & _ & Hby & Hnone & _).
  exists r, (EvSummarizeText text :: calls). split; [exact Hrun|].
  intros c req rc [Hin|Hin]; [discriminate Hin|].
  destruct (client env) as [c0|] eqn:Hc.
  - pose proof (proj1 (Forall_forall _ _) (Hby c0 eq_refl) _ Hin) as Hc0.
    simpl in Hc0. subst c0. unfold client in Hc.
    destruct (OPENAI_API_KEY env) as [k|]; [|discriminate Hc].
    destruct k as [|a k]; [discriminate Hc|].
    injection Hc as <-. split; [reflexivity|discriminate].
  - rewrite (Hnone eq_refl) in Hin. destruct Hin.
Qed.

Lemma summarize_text_uses_key_witness :
  OPENAI_API_KEY sample_env = Some (api_key sample_client)
  /\ api_key sample_client <> [].
Proof.
  destruct (summarize_text_uses_key (sample_world []) sample_env
              [104; 105]%N [])
    as (r & new & Hrun & Hkey).
  apply (Hkey sample_client (chunk_request [104; 105]%N)
           (Ok {| choices := [Some [32; 111; 107; 32]%N] |})).
  vm_compute in Hrun. injection Hrun as _ <-. simpl. tauto.
Defined.

(** ** The Request Handler: the shapes of its runs *)

Lemma released_run {A : Type} (r : result A) (rc : result unit)
    (t : trace) :
  match rc with
  | Ok _ => Done r t
  | Raise e => Done (Raise e) t
  end = Done (released r rc) t.
Proof. destruct rc; reflexivity. Qed.

Section HandlerShapes.
Variable w : World.

Lemma process_document_shape (env : Env) (d : Document) (tr : trace) :
  exists r new,
    process_document w env d tr = Done r (tr ++ new)
    /\ process_run w d r new.
Proof.
  unfold process_document, bind, with_resource, message_reply_text, call.
  cbv zeta.
  destruct (get_file w tr (file_id d)) as [url|e].
  2:{ eexists _, [_]. split; [reflexivity|constructor]. }
  set (t1 := tr ++ [EvGetFile (file_id d) (Ok url)]).
  destruct (reply_text w t1 Msg.RECEIVED) as [[]|e].
  2:{ eexists _, [_; _]. unfold t1. rewrite <- app_assoc.
      split; [reflexivity|constructor]. }
  set (t2 := t1 ++ [EvReplyText Msg.RECEIVED (Ok tt)]).
  destruct (mkdtemp w t2) as [dir|e].
  2:{ eexists _, [_; _; _]. unfold t2, t1. rewrite <- !app_assoc.
      split; [reflexivity|constructor]. }
  set (t3 := t2 ++ [EvMkdtemp (Ok dir)]).
  set (pdf_path := path_join w dir (file_name_or_default d)).
  destruct (download_file_events w url pdf_path t3)
    as (rd & dl & Hdl & Hev).
  rewrite Hdl.
  assert (Ht3 : forall rest,
            (t3 ++ dl) ++ rest
            = tr ++ [EvGetFile (file_id d) (Ok url);
                     EvReplyText Msg.RECEIVED (Ok tt);
                     EvMkdtemp (Ok dir)] ++ dl ++ rest).
  { intro rest. unfold t3, t2, t1. rewrite <- !app_assoc. reflexivity. }
  assert (Hfin : forall (r : result unit) (t body : trace),
            t = (t3 ++ dl) ++ body ->
            body_run pdf_path r body ->
            exists r' new,
              match cleanup w t dir with
              | Ok _ =>
                Done r (t ++ [EvCleanup dir (cleanup w t dir)])
              | Raise e =>
                Done (Raise e) (t ++ [EvCleanup dir (cleanup w t dir)])
              end = Done r' (tr ++ new)
              /\ process_run w d r' new).
  { intros r t body -> Hbody.
    set (rc := cleanup w ((t3 ++ dl) ++ body) dir).
    exists (released r rc),
      ([EvGetFile (file_id d) (Ok url); EvReplyText Msg.RECEIVED (Ok tt);
        EvMkdtemp (Ok dir)] ++ dl ++ body ++ [EvCleanup dir rc]).
    split.
    - rewrite released_run, <- app_assoc, Ht3. reflexivity.
    - apply run_body; assumption. }
  destruct rd as [[]|e].
  2:{ set (rc := cleanup w (t3 ++ dl) dir).
      exists (released (Raise e) rc),
        ([EvGetFile (file_id d) (Ok url); EvReplyText Msg.RECEIVED (Ok tt);
          EvMkdtemp (Ok dir)] ++ dl ++ [EvCleanup dir rc]).
      split.
      - rewrite released_run, Ht3. reflexivity.
      - apply run_download_raised. exact Hev. }
  set (t4 := t3 ++ dl).
  destruct (extract_text w t4 pdf_path) as [text|e].
  2:{ eapply Hfin with (body := [EvExtractText pdf_path (Raise e)]);
        [reflexivity | constructor]. }
  rewrite truthy_strip, negb_involutive.
  set (t5 := t4 ++ [EvExtractText pdf_path (Ok text)]).
  destruct (blank text) eqn:Hblank.
  - set (rr := reply_text w t5 Msg.NO_TEXT).
    eapply Hfin with (body := [EvExtractText pdf_path (Ok text);
                               EvReplyText Msg.NO_TEXT rr]).
    + unfold t5. rewrite <- app_assoc. reflexivity.
    + constructor. exact Hblank.
  - destruct (summarize_text_calls w env text t5)
      as (rs & calls & Hsum & Hcre & _).
    rewrite Hsum. destruct rs as [summary|e].
    + set (rr := reply_text w (t5 ++ EvSummarizeText text :: calls) summary).
      eapply Hfin with
        (body := EvExtractText pdf_path (Ok text) :: EvSummarizeText text
                   :: calls ++ [EvReplyText summary rr]).
      * unfold t5, t4. rewrite <- !app_assoc. reflexivity.
      * constructor; assumption.
    + eapply Hfin with
        (body := EvExtractText pdf_path (Ok text) :: EvSummarizeText text
                   :: calls).
      * unfold t5, t4. rewrite <- !app_assoc. reflexivity.
      * constructor; assumption.
Qed.

Lemma handle_document_shape (env : Env) (update : Update) (tr : trace) :
  exists r new,
    handle_document w env update tr = Done r (tr ++ new)
    /\ handler_run w update r new.
Proof.
  unfold handle_document. cbv zeta.
  destruct (message update) as [m|] eqn:Hmsg.
  2:{ exists (Raise (Exception Msg.NONE_DOCUMENT)), [].
      unfold raise. rewrite app_nil_r. split; [reflexivity|].
      apply run_no_message. exact Hmsg. }
  assert (Hsome : message update <> None) by (rewrite Hmsg; discriminate).
  destruct (document m) as [d|] eqn:Hdoc.
  - assert (Hud : update_document update = Some d)
      by (unfold update_document; rewrite Hmsg; exact Hdoc).
    destruct (mime_differs d) eqn:Hm.
    + eexists _, [_]. split; [reflexivity|].
      apply run_rejected; [exact Hsome|].
      intros d' Hd'. rewrite Hud in Hd'.
      injection Hd' as <-. exact Hm.
    + unfold try_except.
      destruct (process_document_shape env d tr) as (r & new & Hrun & Hp).
      rewrite Hrun. destruct r as [[]|[dsc|dsc]].
      * exists (Ok tt), new. split; [reflexivity|].
        eapply run_processed; eauto. discriminate.
      * unfold message_reply_text, call. cbv zeta.
        eexists _, (new ++ [_]). rewrite app_assoc. split; [reflexivity|].
        eapply run_recovered; eauto.
      * exists (Raise (BaseException dsc)), new. split; [reflexivity|].
        eapply run_processed; eauto. discriminate.
  - assert (Hud : update_document update = None)
      by (unfold update_document; rewrite Hmsg; exact Hdoc).
    eexists _, [_]. split; [reflexivity|].
    apply run_rejected; [exact Hsome|].
    intros d' Hd'. rewrite Hud in Hd'. discriminate Hd'.
Qed.

End HandlerShapes.

(** ** The Request Handler: what its events can be *)

Lemma body_run_in (p : str) (r : result unit) (body : trace) :
  body_run p r body ->
  forall ev, In ev body ->
    (exists rx, ev = EvExtractText p rx)
    \/ (exists text,
          ev = EvSummarizeText text /\ blank text = false
          /\ In (EvExtractText p (Ok text)) body)
    \/ is_create_event ev = true
    \/ (exists msg rr, ev = EvReplyText msg rr).
Proof.
  intros H ev Hin.
  destruct H as [e | text rr Hb | text calls summary rr Hb Hc
                 | text calls e Hb Hc]; simpl in Hin.
  - destruct Hin as [<-|[]]. left. eauto.
  - destruct Hin as [<-|[<-|[]]]; [left; eauto|].
    right. right. right. eauto.
  - destruct Hin as [<-|[<-|Hin]]; [left; eauto| |].
    + right. left. exists text. simpl. auto.
    + apply in_app_or in Hin. destruct Hin as [Hin|[<-|[]]].
      * right. right. left.
        exact (proj1 (forallb_forall _ _) Hc ev Hin).
      * right. right. right. eauto.
  - destruct Hin as [<-|[<-|Hin]]; [left; eauto| |].
    + right. left. exists text. simpl. auto.
    + right. right. left. exact (proj1 (forallb_forall _ _) Hc ev Hin).
Qed.

Lemma process_run_in (w : World) (d : Document) (r : result unit)
    (new : trace) :
  process_run w d r new ->
  forall ev, In ev new ->
    (exists rg, ev = EvGetFile (file_id d) rg)
    \/ (exists msg rr, ev = EvReplyText msg rr)
    \/ (exists e, ev = EvMkdtemp (Raise e))
    \/ (exists dir pre rc,
          new = pre ++ [EvCleanup dir rc]
          /\ In (EvMkdtemp (Ok dir)) pre
          /\ in_scope w d dir new ev).
Proof.
  intros H ev Hin.
  destruct H as [e | url e | url e | url dir dl e rc Hdl
                 | url dir dl body r rc Hdl Hbody].
  - destruct Hin as [<-|[]]. left. eauto.
  - destruct Hin as [<-|[<-|[]]]; [left; eauto|right; left; eauto].
  - destruct Hin as [<-|[<-|[<-|[]]]];
      [left; eauto | right; left; eauto | right; right; left; eauto].
  - simpl in Hin. destruct Hin as [<-|[<-|Hin]];
      [left; eauto | right; left; eauto |].
    right. right. right.
    exists dir,
      ([EvGetFile (file_id d) (Ok url); EvReplyText Msg.RECEIVED (Ok tt);
        EvMkdtemp (Ok dir)] ++ dl), rc.
    split; [rewrite <- app_assoc; reflexivity|].
    split; [simpl; auto|].
    unfold in_scope. cbv zeta.
    destruct Hin as [<-|Hin]; [left; reflexivity|].
    apply in_app_or in Hin. destruct Hin as [Hin|[<-|[]]].
    + right. right. left. exists url.
      exact (proj1 (Forall_forall _ _) Hdl ev Hin).
    + right. left. eauto.
  - simpl in Hin. destruct Hin as [<-|[<-|Hin]];
      [left; eauto | right; left; eauto |].
    right. right. right.
    exists dir,
      ([EvGetFile (file_id d) (Ok url); EvReplyText Msg.RECEIVED (Ok tt);
        EvMkdtemp (Ok dir)] ++ dl ++ body), rc.
    split; [rewrite <- !app_assoc; reflexivity|].
    split; [simpl; auto|].
    unfold in_scope. cbv zeta.
    destruct Hin as [<-|Hin]; [left; reflexivity|].
    apply in_app_or in Hin. destruct Hin as [Hin|Hin].
    + right. right. left. exists url.
      exact (proj1 (Forall_forall _ _) Hdl ev Hin).
    + apply in_app_or in Hin. destruct Hin as [Hin|[<-|[]]];
        [|right; left; eauto].
      destruct (body_run_in Hbody ev Hin)
        as [Hx|[(text & -> & Hb & Hx)|[Hx|Hx]]].
      * right. right. right. left. exact Hx.
      * right. right. right. right. left. exists text.
        split; [reflexivity|]. split; [exact Hb|].
        simpl. right. right. right.
        apply in_or_app. right. apply in_or_app. left. exact Hx.
      * right. right. right. right. right. left. exact Hx.
      * right. right. right. right. right. right. exact Hx.
Qed.

Lemma in_scope_more (w : World) (d : Document) (dir : str)
    (new more : trace) (ev : event) :
  in_scope w d dir new ev -> in_scope w d dir (new ++ more) ev.
Proof.
  unfold in_scope. cbv zeta.
  intros [H|[H|[H|[H|[(text & H1 & H2 & H3)|[H|H]]]]]]; auto 8.
  right. right. right. right. left. exists text.
  split; [exact H1|]. split; [exact H2|]. apply in_or_app. left. exact H3.
Qed.

(** The events of a run of [handle_document]. *)
Lemma handler_run_in (w : World) (update : Update) (r : result unit)
    (new : trace) :
  handler_run w update r new ->
  forall ev, In ev new ->
    (exists msg rr, ev = EvReplyText msg rr)
    \/ exists d,
         update_document update = Some d
         /\ mime_differs d = false
         /\ ((exists rg, ev = EvGetFile (file_id d) rg)
             \/ (exists e, ev = EvMkdtemp (Raise e))
             \/ exists dir pre rc post,
                  new = pre ++ EvCleanup dir rc :: post
                  /\ (post = [] \/ exists msg rr, post = [EvReplyText msg rr])
                  /\ In (EvMkdtemp (Ok dir)) pre
                  /\ in_scope w d dir new ev).
Proof.
  intros H ev Hin.
  destruct H as [Hnone | rr Hsome Hrej | d r new Hdoc Hm Hp Hr
                 | d dsc new rr Hdoc Hm Hp].
  - destruct Hin.
  - destruct Hin as [<-|[]]. left. eauto.
  - destruct (process_run_in Hp ev Hin)
      as [Hx|[Hx|[Hx|(dir & pre & rc & Hnew & Hmk & Hsc)]]];
      [right; exists d; auto | left; exact Hx | right; exists d; auto |].
    right. exists d. split; [exact Hdoc|]. split; [exact Hm|].
    right. right. exists dir, pre, rc, []. auto.
  - apply in_app_or in Hin. destruct Hin as [Hin|[<-|[]]]; [|left; eauto].
    destruct (process_run_in Hp ev Hin)
      as [Hx|[Hx|[Hx|(dir & pre & rc & Hnew & Hmk & Hsc)]]];
      [right; exists d; auto | left; exact Hx | right; exists d; auto |].
    right. exists d. split; [exact Hdoc|]. split; [exact Hm|].
    right. right.
    exists dir, pre, rc, [EvReplyText (Msg.ERROR_PREFIX ++ dsc) rr].
    split; [rewrite Hnew, <- app_assoc; reflexivity|].
    split; [right; eauto|]. split; [exact Hmk|].
    apply in_scope_more. exact Hsc.
Qed.

(** ** The Request Handler: further properties *)

(** X8. [handle_document] releases the temporary directory on every
    way out: in every run, a directory that was created is released
    later in the run, and after the release the handler does nothing
    but, possibly, send one reply (the error reply). *)
Theorem handle_document_releases_tmpdir (w : World) (env : Env)
    (update : Update) (tr : trace) :
  exists r new,
    handle_document w env update tr = Done r (tr ++ new)
    /\ forall dir,
         In (EvMkdtemp (Ok dir)) new ->
         exists pre rc post,
           new = pre ++ EvCleanup dir rc :: post
           /\ (post = [] \/ exists msg rr, post = [EvReplyText msg rr]).
Proof.
  destruct (handle_document_shape w env update tr) as (r & new & Hrun & Hs).
  exists r, new. split; [exact Hrun|].
  intros dir Hin.
  destruct (handler_run_in Hs _ Hin)
    as [(msg & rr & Hx)|(d & _ & _ & [(rg & Hx)|[(e & Hx)|Hx]])];
    try discriminate Hx.
  destruct Hx as (dir' & pre & rc & post & Hnew & Hpost & _ & Hsc).
  assert (dir' = dir) as ->.
  { unfold in_scope in Hsc. cbv zeta in Hsc.
    destruct Hsc as [H|[(? & H)|[(? & H)|[(? & H)|[(? & H & _)|[H|(? & ? & H)]]]]]];
      try discriminate H; try contradiction H.
    injection H as ->. reflexivity. }
  exists pre, rc, post. auto.
Qed.

Lemma handle_document_releases_tmpdir_witness :
  exists pre rc post,
    [EvGetFile [105; 100]%N (Ok [117; 114; 108]%N);
     EvReplyText Msg.RECEIVED (Ok tt);
     EvMkdtemp (Ok [47; 116; 109; 112]%N);
     EvRequestsGet [117; 114; 108]%N
       (Raise (Exception [116; 105; 109; 101; 111; 117; 116]%N));
     EvCleanup [47; 116; 109; 112]%N (Ok tt);
     EvReplyText
       (Msg.ERROR_PREFIX ++ [116; 105; 109; 101; 111; 117; 116]%N) (Ok tt)]
    = pre ++ EvCleanup [47; 116; 109; 112]%N rc :: post
    /\ (post = [] \/ exists msg rr, post = [EvReplyText msg rr]).
Proof.
  destruct (handle_document_releases_tmpdir offline_world sample_env
              pdf_update [])
    as (r & new & Hrun & Hrel).
  vm_compute in Hrun. injection Hrun as _ <-.
  apply Hrel. simpl. tauto.
Defined.

(** X9. [handle_document] invokes the Reducer only on a text that the
    Extractor returned in the same run and that is not blank. *)
Theorem handle_document_summarizes_extracted (w : World) (env : Env)
    (update : Update) (tr : trace) :
  exists r new,
    handle_document w env update tr = Done r (tr ++ new)
    /\ forall text,
         In (EvSummarizeText text) new ->
         blank text = false
         /\ exists path, In (EvExtractText path (Ok text)) new.
Proof.
  destruct (handle_document_shape w env update tr) as (r & new & Hrun & Hs).
  exists r, new. split; [exact Hrun|].
  intros text Hin.
  destruct (handler_run_in Hs _ Hin)
    as [(msg & rr & Hx)|(d & _ & _ & [(rg & Hx)|[(e & Hx)|Hx]])];
    try discriminate Hx.
  destruct Hx as (dir & pre & rc & post & _ & _ & _ & Hsc).
  unfold in_scope in Hsc. cbv zeta in Hsc.
  destruct Hsc as [H|[(? & H)|[(? & H)|[(? & H)|[(t & H & Hb & Hx)|[H|(? & ? & H)]]]]]];
    try discriminate H; try contradiction H.
  injection H as <-. split; [exact Hb|]. eexists. exact Hx.
Qed.

Lemma handle_document_summarizes_extracted_witness :
  blank [104; 105]%N = false
  /\ exists path,
       In (EvExtractText path (Ok [104; 105]%N))
          [EvGetFile [105; 100]%N (Ok [117; 114; 108]%N);
           EvReplyText Msg.RECEIVED (Ok tt);
           EvMkdtemp (Ok [47; 116; 109; 112]%N);
           EvRequestsGet [117; 114; 108]%N
             (Ok {| status_code := 200; http_error := [];
                    body_chunks := [[37; 80; 68; 70]%N];
                    body_error := None |});
           EvOpen ([47; 116; 109; 112; 47]%N ++ Msg.DEFAULT_FILE_NAME)
             (Ok tt);
           EvWrite ([47; 116; 109; 112; 47]%N ++ Msg.DEFAULT_FILE_NAME)
             [37; 80; 68; 70]%N (Ok tt);
           EvExtractText
             ([47; 116; 109; 112; 47]%N ++ Msg.DEFAULT_FILE_NAME)
             (Ok [104; 105]%N);
           EvSummarizeText [104; 105]%N;
           EvReplyText Msg.NO_API_KEY (Ok tt);
           EvCleanup [47; 116; 109; 112]%N (Ok tt)].
Proof.
  destruct (handle_document_summarizes_extracted
              (sample_world [104; 105]%N) no_key_env pdf_update [])
    as (r & new & Hrun & Hsum).
  vm_compute in Hrun. injection Hrun as _ <-.
  apply Hsum. simpl. tauto.
Defined.



(** X11. When the download of a PDF fails ([requests.get] raises an
    exception of class [Exception]) and the temporary directory is
    released, [handle_document] replies with the error prefix followed
    by the text of the exception.  Its calls are: the file lookup, the
    "received" reply, the creation of the directory, the request, the
    release, the error reply.  Nothing is written or extracted, and the
    Reducer is not invoked. *)
Theorem handle_document_retrieval_error (w : World) (env : Env)
    (update : Update) (tr : trace) (d : Document) (url dir dsc : str) :
  update_document update = Some d ->
  mime_type d = Some Msg.MIME_PDF ->
  get_file w tr (file_id d) = Ok url ->
  reply_text w (tr ++ [EvGetFile (file_id d) (Ok url)]) Msg.RECEIVED
  = Ok tt ->
  mkdtemp w (tr ++ [EvGetFile (file_id d) (Ok url);
                    EvReplyText Msg.RECEIVED (Ok tt)])
  = Ok dir ->
  requests_get w (tr ++ [EvGetFile (file_id d) (Ok url);
                         EvReplyText Msg.RECEIVED (Ok tt);
                         EvMkdtemp (Ok dir)]) url
  = Raise (Exception dsc) ->
  cleanup w (tr ++ [EvGetFile (file_id d) (Ok url);
                    EvReplyText Msg.RECEIVED (Ok tt);
                    EvMkdtemp (Ok dir);
                    EvRequestsGet url (Raise (Exception dsc))]) dir
  = Ok tt ->
  exists rr,
    handle_document w env update tr
    = Done rr
        (tr ++ [EvGetFile (file_id d) (Ok url);
                EvReplyText Msg.RECEIVED (Ok tt);
                EvMkdtemp (Ok dir);
                EvRequestsGet url (Raise (Exception dsc));
                EvCleanup dir (Ok tt);
                EvReplyText (Msg.ERROR_PREFIX ++ dsc) rr]).
Proof.
  intros Hdoc Hmime Hget Hrep Hmk Hreq Hcl.
  assert (Hm : mime_differs d = false).
  { unfold mime_differs. rewrite Hmime.
    rewrite (proj2 (str_eqb_eq Msg.MIME_PDF Msg.MIME_PDF) eq_refl).
    reflexivity. }
  unfold update_document in Hdoc.
  unfold handle_document. cbv zeta.
  destruct (message update) as [m|]; [|discriminate Hdoc].
  rewrite Hdoc, Hm.
  unfold try_except, process_document, bind, with_resource,
    message_reply_text, download_file, bind, call.
  cbv zeta. rewrite Hget. cbv beta iota. rewrite Hrep. cbv beta iota.
  rewrite <- !app_assoc. cbn [app]. rewrite Hmk. cbv beta iota.
  rewrite Hreq. cbv beta iota. rewrite Hcl. cbv beta iota.
  rewrite <- !app_assoc. cbn [app exn_str].
  eexists. reflexivity.
Qed.

Lemma handle_document_retrieval_error_witness :
  exists rr,
    handle_document offline_world sample_env pdf_update []
    = Done rr
        ([] ++ [EvGetFile [105; 100]%N (Ok [117; 114; 108]%N);
                EvReplyText Msg.RECEIVED (Ok tt);
                EvMkdtemp (Ok [47; 116; 109; 112]%N);
                EvRequestsGet [117; 114; 108]%N
                  (Raise (Exception [116; 105; 109; 101; 111; 117; 116]%N));
                EvCleanup [47; 116; 109; 112]%N (Ok tt);
                EvReplyText
                  (Msg.ERROR_PREFIX ++ [116; 105; 109; 101; 111; 117; 116]%N)
                  rr]).
Proof.
  apply (@handle_document_retrieval_error offline_world sample_env
           pdf_update []
           {| file_id := [105; 100]%N; mime_type := Some Msg.MIME_PDF;
              file_name := None |});
    reflexivity.
Defined.

(** X12. In a run of [handle_document], every file that is opened,
    written or given to the Extractor is the one file of the request:
    the path made of a temporary directory created in the run and of
    the name of the document, or [file.pdf] when the name is missing or
    empty. *)
Theorem handle_document_one_file (w : World) (env : Env) (update : Update)
    (tr : trace) :
  exists r new,
    handle_document w env update tr = Done r (tr ++ new)
    /\ forall ev path,
         In ev new -> file_path_of ev = Some path ->
         exists d dir,
           update_document update = Some d
           /\ In (EvMkdtemp (Ok dir)) new
           /\ path = path_join w dir (file_name_or_default d).
Proof.
  destruct (handle_document_shape w env update tr) as (r & new & Hrun & Hs).
  exists r, new. split; [exact Hrun|].
  intros ev path Hin Hpath.
  destruct (handler_run_in Hs _ Hin)
    as [(msg & rr & ->)|(d & Hdoc & _ & [(rg & ->)|[(e & ->)|Hx]])];
    try discriminate Hpath.
  destruct Hx as (dir & pre & rc & post & Hnew & _ & Hmk & Hsc).
  exists d, dir. split; [exact Hdoc|]. split.
  { rewrite Hnew. apply in_or_app. left. exact Hmk. }
  unfold in_scope in Hsc. cbv zeta in Hsc.
  destruct Hsc as [->|[(? & ->)|[(url & H)|[(? & ->)|[(? & -> & _)|[H|(? & ? & ->)]]]]]];
    try discriminate Hpath.
  - destruct ev; simpl in H; try contradiction H; simpl in Hpath;
      try discriminate Hpath; injection Hpath as <-; exact H.
  - simpl in Hpath. injection Hpath as <-. reflexivity.
  - destruct ev; try discriminate H. discriminate Hpath.
Qed.

Lemma handle_document_one_file_witness :
  exists d dir,
    update_document pdf_update = Some d
    /\ In (EvMkdtemp (Ok dir))
          [EvGetFile [105; 100]%N (Ok [117; 114; 108]%N);
           EvReplyText Msg.RECEIVED (Ok tt);
           EvMkdtemp (Ok [47; 116; 109; 112]%N);
           EvRequestsGet [117; 114; 108]%N
             (Ok {| status_code := 200; http_error := [];
                    body_chunks := [[37; 80; 68; 70]%N];
                    body_error := None |});
           EvOpen ([47; 116; 109; 112; 47]%N ++ Msg.DEFAULT_FILE_NAME)
             (Ok tt);
           EvWrite ([47; 116; 109; 112; 47]%N ++ Msg.DEFAULT_FILE_NAME)
             [37; 80; 68; 70]%N (Ok tt);
           EvExtractText
             ([47; 116; 109; 112; 47]%N ++ Msg.DEFAULT_FILE_NAME)
             (Ok [32]%N);
           EvReplyText Msg.NO_TEXT (Ok tt);
           EvCleanup [47; 116; 109; 112]%N (Ok tt)]
    /\ [47; 116; 109; 112; 47]%N ++ Msg.DEFAULT_FILE_NAME
       = path_join (sample_world [32]%N) dir (file_name_or_default d).
Proof.
  destruct (handle_document_one_file (sample_world [32]%N) sample_env
              pdf_update [])
    as (r & new & Hrun & Hfile).
  vm_compute in Hrun. injection Hrun as _ <-.
  apply (Hfile (EvExtractText
                  ([47; 116; 109; 112; 47]%N ++ Msg.DEFAULT_FILE_NAME)
                  (Ok [32]%N))
               ([47; 116; 109; 112; 47]%N ++ Msg.DEFAULT_FILE_NAME));
    [simpl; tauto | reflexivity].
Defined.
